(** * ghn-baogia: the freight pricing engine, its text extractor and its HTTP
    entry point, embedded from [calculator.py] and [app.py].

    Embedded are [ShippingCalculator] with its configuration, coefficient
    lookups, [calculate_weight_from_dimensions], [get_base_rate],
    [calculate_shipping_rate] and [parse_user_query], and the handler
    [baogia] of [app.py].

    Python values are modelled as the interpreter has them: [int] as [Z],
    [float] as the primitive binary64 numbers (so every product and sum rounds
    exactly as CPython's does), [str] as a list of code points, [dict] as a
    finite map, exceptions as values of a sum type. The built-ins the program
    calls ([float], [int], [round], [max], [sorted], [re.search]) are defined
    here as CPython defines them; the character tables they consult are a
    parameter. *)

From Stdlib Require Import ZArith QArith Qround Qabs Lia Lqa Bool Ascii.
From Stdlib Require Import Floats.PrimFloat Floats.SpecFloat Floats.FloatOps.
From stdpp Require Import base option list gmap strings.

Set Warnings "-inexact-float,-clear-no-such-hyp,-register-all".

Local Open Scope Z_scope.

(** ** Exceptions *)

Inductive exn_class :=
| ValueError | TypeError | KeyError | IndexError
| OverflowError | AttributeError | ZeroDivisionError.

Record exn := Raise { exn_cls : exn_class; exn_msg : string }.

(** A computation that may raise: [inl e] is a raised exception. *)
Definition res (A : Type) : Type := (exn + A)%type.

Definition ok {A} (a : A) : res A := inr a.
Definition raise {A} (c : exn_class) (m : string) : res A := inl (Raise c m).

Definition rbind {A B} (m : res A) (k : A -> res B) : res B :=
  match m with
  | inl e => inl e
  | inr a => k a
  end.

Declare Scope res_scope.
Delimit Scope res_scope with res.
Notation "'do' x <- m ; k" := (rbind m (fun x => k))
  (at level 10, x name, m at level 100, k at level 200) : res_scope.
Local Open Scope res_scope.

(** ** Numbers *)

(** The exact value of a Python number: a rational, an infinity or NaN. *)
Inductive xval := XNaN | XNegInf | XFin (q : Q) | XPosInf.

Definition Qpow2 (e : Z) : Q :=
  match e with
  | Z0 => 1%Q
  | Zpos p => inject_Z (Z.pow_pos 2 p)
  | Zneg p => (1 # Pos.pow 2 p)%Q
  end.

Definition sf_val (x : spec_float) : xval :=
  match x with
  | S754_zero _ => XFin 0
  | S754_infinity s => if s then XNegInf else XPosInf
  | S754_nan => XNaN
  | S754_finite s m e =>
      XFin (inject_Z (if s then Zneg m else Zpos m) * Qpow2 e)
  end.

Definition float_val (f : float) : xval := sf_val (Prim2SF f).

(** [int] and [float], the two numeric types the engine computes with. *)
Inductive pynum := PInt (z : Z) | PFloat (f : float).

Definition num_val (x : pynum) : xval :=
  match x with
  | PInt z => XFin (inject_Z z)
  | PFloat f => float_val f
  end.

(** Comparisons between numbers are exact, also between an [int] and a
    [float]; every comparison with NaN is false. *)
Definition x_lt (a b : xval) : bool :=
  match a, b with
  | XNaN, _ | _, XNaN => false
  | _, XNegInf => false
  | XNegInf, _ => true
  | XPosInf, _ => false
  | XFin _, XPosInf => true
  | XFin p, XFin q => negb (Qle_bool q p)
  end.

Definition x_le (a b : xval) : bool :=
  match a, b with
  | XNaN, _ | _, XNaN => false
  | XNegInf, _ => true
  | _, XNegInf => false
  | _, XPosInf => true
  | XPosInf, _ => false
  | XFin p, XFin q => Qle_bool p q
  end.

Definition num_lt (a b : pynum) : bool := x_lt (num_val a) (num_val b).
Definition num_le (a b : pynum) : bool := x_le (num_val a) (num_val b).
Definition num_gt (a b : pynum) : bool := num_lt b a.
Definition num_ge (a b : pynum) : bool := num_le b a.

(** [int -> float], correctly rounded; too large an [int] raises. *)
Definition float_of_Z (z : Z) : res float :=
  match binary_normalize prec emax z 0 false with
  | S754_infinity _ => raise OverflowError "int too large to convert to float"
  | sf => ok (SF2Prim sf)
  end.

Definition as_float (x : pynum) : res float :=
  match x with
  | PInt z => float_of_Z z
  | PFloat f => ok f
  end.

(** [a * b] *)
Definition num_mul (a b : pynum) : res pynum :=
  match a, b with
  | PInt x, PInt y => ok (PInt (x * y))
  | _, _ =>
      do x <- as_float a;
      do y <- as_float b;
      ok (PFloat (x * y)%float)
  end.

(** [a + b] *)
Definition num_add (a b : pynum) : res pynum :=
  match a, b with
  | PInt x, PInt y => ok (PInt (x + y))
  | _, _ =>
      do x <- as_float a;
      do y <- as_float b;
      ok (PFloat (x + y)%float)
  end.

Definition num_is_zero (a : pynum) : bool :=
  match num_val a with
  | XFin q => Qeq_bool q 0
  | _ => false
  end.

(** The quotient of two integers as the nearest [float]. *)
Definition float_of_ratio (n d : Z) : float :=
  match n, d with
  | Z0, _ => zero
  | _, Z0 => nan
  | _, _ =>
      let '(mz, ez, lz) := SFdiv_core_binary prec emax (Z.abs n) 0 (Z.abs d) 0 in
      SF2Prim (binary_round_aux prec emax (xorb (n <? 0) (d <? 0)) mz ez lz)
  end.

(** [a / b] (true division). *)
Definition num_truediv (a b : pynum) : res pynum :=
  if num_is_zero b then
    raise ZeroDivisionError
      (match a, b with PInt _, PInt _ => "division by zero" | _, _ => "float division by zero" end)
  else
    match a, b with
    | PInt x, PInt y =>
        match Prim2SF (float_of_ratio x y) with
        | S754_infinity _ => raise OverflowError "integer division result too large for a float"
        | _ => ok (PFloat (float_of_ratio x y))
        end
    | _, _ =>
        do x <- as_float a;
        do y <- as_float b;
        ok (PFloat (x / y)%float)
    end.

(** Round half to even, on an exact rational. *)
Definition round_half_even (q : Q) : Z :=
  let f := Qfloor q in
  match Qcompare (q - inject_Z f) (1 # 2) with
  | Lt => f
  | Gt => f + 1
  | Eq => if Z.even f then f else f + 1
  end.

(** [round(x)] with one argument: an [int]. *)
Definition py_round (x : pynum) : res Z :=
  match x with
  | PInt z => ok z
  | PFloat f =>
      match float_val f with
      | XNaN => raise ValueError "cannot convert float NaN to integer"
      | XFin q => ok (round_half_even q)
      | _ => raise OverflowError "cannot convert float infinity to integer"
      end
  end.

(** Truncation toward zero, [int(x)] on a [float]. *)
Definition Qtrunc (q : Q) : Z := if Qle_bool 0 q then Qfloor q else Qceiling q.


(** ** Strings *)

(** A [str] is its sequence of code points. *)
Definition pystr := list N.

Fixpoint utf8_go (s : string) (need : nat) (acc : N) : pystr :=
  match s with
  | EmptyString => []
  | String a s' =>
      let b := N_of_ascii a in
      match need with
      | O =>
          if (b <? 128)%N then b :: utf8_go s' 0 0%N
          else if (b <? 224)%N then utf8_go s' 1 (b - 192)%N
          else if (b <? 240)%N then utf8_go s' 2 (b - 224)%N
          else utf8_go s' 3 (b - 240)%N
      | S O => (acc * 64 + (b - 128))%N :: utf8_go s' 0 0%N
      | S n => utf8_go s' n (acc * 64 + (b - 128))%N
      end
  end.

(** The text a source literal denotes. *)
Definition utf8 (s : string) : pystr := utf8_go s 0 0%N.

(** What the program takes from the interpreter: the character tables of its
    Unicode database, consulted through [str.lower], [str.strip], [float],
    [int] and the [re] module, and the limit on the number of digits of an
    [int] converted from text (0 for none). The program is defined over any
    such interpreter. *)
Class Interpreter := {
  uc_lower : pystr -> pystr;      (* str.lower() *)
  uc_isspace : N -> bool;         (* str.isspace() of one character; \s *)
  uc_decimal : N -> option N;     (* the value of a decimal digit; \d *)
  uc_isalnum : N -> bool;         (* str.isalnum() of one character; \w without _ *)
  uc_ieq : N -> N -> bool;        (* IGNORECASE: pattern character, text character *)
  max_str_digits : nat            (* sys.get_int_max_str_digits() *)
}.

Fixpoint drop_while {A} (p : A -> bool) (l : list A) : list A :=
  match l with
  | [] => []
  | x :: l' => if p x then drop_while p l' else l
  end.

Definition strip_with (sp : N -> bool) (s : pystr) : pystr :=
  rev (drop_while sp (rev (drop_while sp s))).

(** [s.strip()] *)
Definition str_strip `{Interpreter} (s : pystr) : pystr := strip_with uc_isspace s.

Definition pystr_eqb (a b : pystr) : bool := bool_decide (a = b).

Fixpoint pystr_ltb (a b : pystr) : bool :=
  match a, b with
  | _, [] => false
  | [], _ :: _ => true
  | x :: a', y :: b' => (x <? y)%N || ((x =? y)%N && pystr_ltb a' b')
  end.

(** ** Values *)

(** The values a caller passes: [None], a number or a string. *)
Inductive pyval := VNone | VNum (n : pynum) | VStr (s : pystr).

Definition type_name (v : pyval) : string :=
  match v with
  | VNone => "NoneType"
  | VNum (PInt _) => "int"
  | VNum (PFloat _) => "float"
  | VStr _ => "str"
  end.

Definition is_none (v : pyval) : bool :=
  match v with VNone => true | _ => false end.

(** Truth value, as [if v], [v or d] and [v and w] test it. *)
Definition truthy (v : pyval) : bool :=
  match v with
  | VNone => false
  | VNum n => negb (num_is_zero n)
  | VStr s => match s with [] => false | _ => true end
  end.

(** [a or b] *)
Definition py_or (a b : pyval) : pyval := if truthy a then a else b.

Inductive cmpop := OpLt | OpLe | OpGt | OpGe.

Definition cmpop_name (op : cmpop) : string :=
  match op with OpLt => "<" | OpLe => "<=" | OpGt => ">" | OpGe => ">=" end.

(** [a op b]: numbers with numbers, strings with strings, anything else is a
    [TypeError]. *)
Definition py_compare (op : cmpop) (a b : pyval) : res bool :=
  match a, b with
  | VNum x, VNum y =>
      ok match op with
         | OpLt => num_lt x y | OpLe => num_le x y
         | OpGt => num_gt x y | OpGe => num_ge x y
         end
  | VStr x, VStr y =>
      ok match op with
         | OpLt => pystr_ltb x y | OpLe => negb (pystr_ltb y x)
         | OpGt => pystr_ltb y x | OpGe => negb (pystr_ltb x y)
         end
  | _, _ =>
      raise TypeError ("'" +:+ cmpop_name op +:+ "' not supported between instances of '"
                       +:+ type_name a +:+ "' and '" +:+ type_name b +:+ "'")
  end.

(** [max] of a non-empty sequence: the first of the greatest elements. *)
Fixpoint max_from (cur : pyval) (rest : list pyval) : res pyval :=
  match rest with
  | [] => ok cur
  | x :: rest' =>
      do b <- py_compare OpGt x cur;
      max_from (if b then x else cur) rest'
  end.

Definition py_max (l : list pyval) : res pyval :=
  match l with
  | [] => raise ValueError "max() iterable argument is empty"
  | x :: rest => max_from x rest
  end.

(** [max(a, b)] on two numbers. *)
Definition num_max (a b : pynum) : pynum := if num_gt b a then b else a.

(** ** The built-ins [float] and [int] *)

Definition ascii_space (c : N) : bool :=
  ((c =? 32) || ((9 <=? c) && (c <=? 13)))%N.

Definition is_digit (c : N) : bool := ((48 <=? c) && (c <=? 57))%N.

Definition ascii_lower (c : N) : N :=
  if ((65 <=? c) && (c <=? 90))%N then (c + 32)%N else c.

(** What [float] and [int] make of one character before they parse: spaces
    and decimal digits beyond ASCII are brought to ASCII, any other character
    beyond ASCII makes the text invalid. *)
Definition ascii_char `{Interpreter} (c : N) : option N :=
  if (c <? 128)%N then Some c
  else if uc_isspace c then Some 32%N
  else option_map (fun d => (48 + d)%N) (uc_decimal c).

Fixpoint to_ascii `{Interpreter} (s : pystr) : option pystr :=
  match s with
  | [] => Some []
  | c :: s' =>
      match ascii_char c with
      | None => None
      | Some c' => option_map (cons c') (to_ascii s')
      end
  end.

(** An underscore may stand between two digits, nowhere else. *)
Fixpoint strip_underscores (prev : N) (s : pystr) : option pystr :=
  match s with
  | [] => if (prev =? 95)%N then None else Some []
  | c :: s' =>
      if (c =? 95)%N then
        if is_digit prev then strip_underscores c s' else None
      else if (prev =? 95)%N && negb (is_digit c) then None
      else option_map (cons c) (strip_underscores c s')
  end.

Fixpoint span_digits (s : pystr) : pystr * pystr :=
  match s with
  | [] => ([], [])
  | c :: s' =>
      if is_digit c then let '(d, r) := span_digits s' in (c :: d, r)
      else ([], s)
  end.

Definition digits_val (ds : pystr) : Z :=
  fold_left (fun acc c => 10 * acc + Z.of_N (c - 48)) ds 0.

Definition take_sign (s : pystr) : bool * pystr :=
  match s with
  | c :: r => if (c =? 43)%N then (false, r) else if (c =? 45)%N then (true, r) else (false, s)
  | [] => (false, s)
  end.

Definition is_nil {A} (l : list A) : bool :=
  match l with [] => true | _ => false end.

(** The exponent part, which must reach the end of the text. *)
Definition parse_exponent (s : pystr) : option Z :=
  match s with
  | [] => Some 0
  | c :: r =>
      if (ascii_lower c =? 101)%N then
        let '(eneg, r1) := take_sign r in
        let '(ed, r2) := span_digits r1 in
        if is_nil ed || negb (is_nil r2) then None
        else Some (if eneg then - digits_val ed else digits_val ed)
      else None
  end.

(** A decimal literal, an infinity or a NaN, as the nearest [float]. *)
Definition parse_float_ascii (s : pystr) : option float :=
  let '(neg, r) := take_sign s in
  let rl := map ascii_lower r in
  if pystr_eqb rl (utf8 "inf") || pystr_eqb rl (utf8 "infinity") then
    Some (if neg then neg_infinity else infinity)
  else if pystr_eqb rl (utf8 "nan") then Some nan
  else
    let '(ip, r1) := span_digits r in
    let '(fp, r2) :=
      match r1 with
      | c :: r' => if (c =? 46)%N then span_digits r' else ([], r1)
      | [] => ([], r1)
      end in
    if is_nil ip && is_nil fp then None
    else
      match parse_exponent r2 with
      | None => None
      | Some e =>
          let m := digits_val (ip ++ fp) in
          let e10 := e - Z.of_nat (length fp) in
          let mag := if 0 <=? e10 then float_of_ratio (m * 10 ^ e10) 1
                     else float_of_ratio m (10 ^ (- e10)) in
          Some (if neg then (- mag)%float else mag)
      end.

(** [float(s)] on a string; the message leaves the offending text out. *)
Definition float_of_str `{Interpreter} (s : pystr) : res float :=
  match to_ascii s with
  | None => raise ValueError "could not convert string to float"
  | Some a =>
      match strip_underscores 0%N (strip_with ascii_space a) with
      | None => raise ValueError "could not convert string to float"
      | Some t =>
          match parse_float_ascii t with
          | None => raise ValueError "could not convert string to float"
          | Some f => ok f
          end
      end
  end.

(** The digits of the run of digits and underscores at the head of [s]. *)
Fixpoint digit_run (s : pystr) : nat :=
  match s with
  | [] => O
  | c :: s' =>
      if is_digit c then S (digit_run s')
      else if (c =? 95)%N then digit_run s'
      else O
  end.

(** [int(s)] on a string, base 10. A run of more digits than the limit is
    refused before anything else of the text is looked at. *)
Definition int_of_str `{Interpreter} (s : pystr) : res Z :=
  match to_ascii s with
  | None => raise ValueError "invalid literal for int() with base 10"
  | Some a =>
      let '(neg, r) := take_sign (strip_with ascii_space a) in
      if negb (Nat.eqb max_str_digits 0) && (max_str_digits <? digit_run r)%nat then
        raise ValueError "Exceeds the limit for integer string conversion"
      else
        match strip_underscores 0%N r with
        | None => raise ValueError "invalid literal for int() with base 10"
        | Some t =>
            let '(ds, rest) := span_digits t in
            if is_nil ds || negb (is_nil rest) then
              raise ValueError "invalid literal for int() with base 10"
            else ok (if neg then - digits_val ds else digits_val ds)
        end
  end.

(** [float(v)] *)
Definition py_float `{Interpreter} (v : pyval) : res float :=
  match v with
  | VNone => raise TypeError "float() argument must be a string or a real number, not 'NoneType'"
  | VNum n => as_float n
  | VStr s => float_of_str s
  end.

(** [int(v)] *)
Definition py_int `{Interpreter} (v : pyval) : res Z :=
  match v with
  | VNone => raise TypeError "int() argument must be a string, a bytes-like object or a real number, not 'NoneType'"
  | VNum (PInt z) => ok z
  | VNum (PFloat f) =>
      match float_val f with
      | XNaN => raise ValueError "cannot convert float NaN to integer"
      | XFin q => ok (Qtrunc q)
      | _ => raise OverflowError "cannot convert float infinity to integer"
      end
  | VStr s => int_of_str s
  end.

(** ** The embedded configuration *)

(** One band of a coefficient table: [[threshold, coefficient]]. *)
Definition band : Type := pynum * pynum.

(** [self.config]. Each entry may be missing; an entry that is present has
    the shape [DEFAULT_CONFIG] gives it. *)
Record config := Config {
  km_coefficients : option (list band);
  zone_coefficients : option (gmap pystr pynum);
  goods_coefficients : option (gmap pystr pynum);
  vehicle_coefficients : option (gmap pystr pynum);
  size_coefficients : option (list band);
  constants : option (gmap string pynum);
  zone_mapping : option (list (pystr * pystr))
}.

Definition fband (t : Z) (c : float) : band := (PInt t, PFloat c).

Definition coef_dict (l : list (string * float)) : gmap pystr pynum :=
  list_to_map (map (fun kv => (utf8 (fst kv), PFloat (snd kv))) l).

Definition DEFAULT_CONFIG : config := {|
  km_coefficients := Some [
    fband 0 0.35; fband 50 0.35; fband 100 0.4; fband 150 0.45; fband 200 0.5; fband 250 0.55;
    fband 300 0.6; fband 350 0.65; fband 400 0.7; fband 450 0.75; fband 500 0.8; fband 550 0.825;
    fband 600 0.85; fband 650 0.875; fband 700 0.9; fband 750 0.925; fband 800 0.95; fband 850 0.975;
    fband 900 1.0; fband 950 1.025; fband 1000 1.05; fband 1100 1.075; fband 1200 1.1; fband 1300 1.125;
    fband 1400 1.15; fband 1500 1.175; fband 1600 1.2; fband 1700 1.225; fband 1800 1.25; fband 1900 1.275;
    fband 2000 1.3; fband 2100 1.325; fband 2200 1.35; fband 2300 1.375; fband 2400 1.4; fband 2500 1.6 ];
  zone_coefficients := Some (coef_dict [
    ("Vùng 1", 1.4); ("Vùng 5", 1.3); ("Vùng còn lại", 1.0); ("Vùng huyện đảo", 1.5) ]%float);
  goods_coefficients := Some (coef_dict [
    ("Hàng trần VLXD", 0.8); ("Hàng dễ vỡ", 1.5); ("Hàng tiêu dùng", 1.0); ("Hàng đông lạnh", 1.5);
    ("Hàng hóa chất", 1.5); ("Hàng đóng hộp tiêu dùng", 1.0); ("Lúa thóc", 0.65) ]%float);
  vehicle_coefficients := Some (coef_dict [
    ("Tải", 1.0); ("Đầu kéo", 1.25); ("Mooc sàn", 1.5); ("Fooc", 2.25) ]%float);
  size_coefficients := Some [
    fband 0 1.0; fband 200 1.2; fband 300 1.3; fband 400 1.4; fband 600 1.5; fband 800 1.8;
    fband 1100 2.0 ];
  constants := Some (list_to_map [
    ("full_vehicle_rate", PFloat 4076.05); ("delivery_vinh_base", PInt 5445000);
    ("delivery_vinh_rate", PFloat 0.18); ("vol_weight_factor", PInt 6000) ]);
  zone_mapping := Some (map (fun kv => (utf8 (fst kv), utf8 (snd kv))) [
    ("Hà Nội", "Vùng 1"); ("TP HCM", "Vùng 1"); ("Hải Phòng", "Vùng 1");
    ("Đà Nẵng", "Vùng 5"); ("Cần Thơ", "Vùng 5");
    ("Phú Quốc", "Vùng huyện đảo"); ("Côn Đảo", "Vùng huyện đảo"); ("Lý Sơn", "Vùng huyện đảo");
    ("Nghệ An", "Vùng còn lại"); ("Thái Hòa", "Vùng còn lại"); ("Thanh Hóa", "Vùng còn lại");
    ("Bắc Giang", "Vùng còn lại"); ("Bình Dương", "Vùng còn lại") ])
|}.

(** [self.config[name]]: a missing entry is a [KeyError] on its name. *)
Definition cfg_item {A} (entry : option A) (name : string) : res A :=
  match entry with
  | Some a => ok a
  | None => raise KeyError ("'" +:+ name +:+ "'")
  end.

(** [d[name]] *)
Definition dict_item (d : gmap string pynum) (name : string) : res pynum :=
  cfg_item (d !! name) name.

(** [d.get(key, 1.0)]: the keys are strings, so no other value is found. *)
Definition dict_get_default (d : gmap pystr pynum) (key : pyval) : pynum :=
  match key with
  | VStr s => default (PFloat 1.0) (d !! s)
  | _ => PFloat 1.0
  end.

(** ** ShippingCalculator *)

(** [sorted(bands, key=lambda x: x[0])]: the stable sort by threshold, which
    compares the thresholds with [<] and leaves a table without a descent
    as it is. *)
Fixpoint insert_band (b : band) (l : list band) : list band :=
  match l with
  | [] => [b]
  | y :: l' => if num_lt (fst y) (fst b) then y :: insert_band b l' else b :: l
  end.

Definition sorted_bands (l : list band) : list band := foldr insert_band [] l.

(** The loop of both band lookups: keep the coefficient of each band the
    value reaches, stop at the first band it does not reach. *)
Fixpoint band_scan (value : pyval) (coeffs : list band) (coef : pynum) : res pynum :=
  match coeffs with
  | [] => ok coef
  | (threshold, c) :: rest =>
      do reached <- py_compare OpGe value (VNum threshold);
      if reached then band_scan value rest c else ok coef
  end.

Definition band_lookup (table : list band) (value : pyval) : res pynum :=
  let coeffs := sorted_bands table in
  match coeffs with
  | [] => raise IndexError "list index out of range"
  | first :: _ => band_scan value coeffs (snd first)
  end.

Definition get_km_coefficient (cfg : config) (distance : pyval) : res pynum :=
  do table <- cfg_item (km_coefficients cfg) "km_coefficients";
  band_lookup table distance.

Definition get_zone_coefficient (cfg : config) (zone_name : pyval) : res pynum :=
  do d <- cfg_item (zone_coefficients cfg) "zone_coefficients";
  ok (dict_get_default d zone_name).

Definition get_goods_coefficient (cfg : config) (goods_type : pyval) : res pynum :=
  do d <- cfg_item (goods_coefficients cfg) "goods_coefficients";
  ok (dict_get_default d goods_type).

Definition get_vehicle_coefficient (cfg : config) (vehicle_type : pyval) : res pynum :=
  do d <- cfg_item (vehicle_coefficients cfg) "vehicle_coefficients";
  ok (dict_get_default d vehicle_type).

Definition get_size_coefficient (cfg : config) (max_dimension : pyval) : res pynum :=
  let max_dim := py_or max_dimension (VNum (PInt 0)) in
  do table <- cfg_item (size_coefficients cfg) "size_coefficients";
  band_lookup table max_dim.

Definition get_base_rate (chargeable_weight_kg : pynum) : pynum :=
  if num_lt chargeable_weight_kg (PInt 1000) then PFloat 5230.78
  else if num_le (PInt 1000) chargeable_weight_kg && num_lt chargeable_weight_kg (PInt 3000)
  then PFloat 3130.78
  else if num_le (PInt 3000) chargeable_weight_kg && num_lt chargeable_weight_kg (PInt 10000)
  then PFloat 2180.78
  else PFloat 1200.78.

(** [try: body except (ValueError, TypeError): handler] *)
Definition is_value_or_type_error (e : exn) : bool :=
  match exn_cls e with
  | ValueError | TypeError => true
  | _ => false
  end.

Definition calculate_weight_from_dimensions `{Interpreter}
    (length width height : pyval) (factor : pynum) : res pynum :=
  if is_none length || is_none width || is_none height then ok (PInt 0)
  else
    match (do l <- py_float length;
           do w <- py_float width;
           do h <- py_float height;
           let factor := if num_le factor (PInt 0) then PInt 6000 else factor in
           num_truediv (PFloat (l * w * h)%float) factor) with
    | inl e => if is_value_or_type_error e then ok (PInt 0) else inl e
    | inr v => ok v
    end.

(** ** The result dictionary and the body of [calculate_shipping_rate] *)

(** A value stored in [results]. *)
Inductive rval :=
| RNone
| RNum (n : pynum)
| RStr (s : string)
| RDict (d : gmap string pynum).

(** The body of the [try] block runs over the dictionary [results], which
    keeps what was stored in it when a later statement raises. *)
Definition M (A : Type) : Type := gmap string rval -> res A * gmap string rval.

Definition mpure {A} (a : A) : M A := fun s => (ok a, s).

Definition mseq {A B} (m : M A) (k : A -> M B) : M B :=
  fun s =>
    match m s with
    | (inl e, s') => (inl e, s')
    | (inr a, s') => k a s'
    end.

Definition lift {A} (r : res A) : M A := fun s => (r, s).

(** [results[key] = v] *)
Definition store (key : string) (v : rval) : M unit :=
  fun s => (ok tt, <[key := v]> s).

(** [results[key]] *)
Definition load (key : string) : M rval :=
  fun s =>
    match s !! key with
    | Some v => (ok v, s)
    | None => (raise KeyError ("'" +:+ key +:+ "'"), s)
    end.

Declare Scope M_scope.
Delimit Scope M_scope with M.
Notation "'let*' x := m 'in' k" := (mseq m (fun x => k))
  (at level 10, x name, m at level 100, k at level 200) : M_scope.
Notation "m ;; k" := (mseq m (fun _ => k))
  (at level 100, k at level 200, right associativity) : M_scope.

(** [for key in keys: results[key] = round(results[key])] *)
Fixpoint round_fields (keys : list string) : M unit :=
  match keys with
  | [] => mpure tt
  | key :: rest =>
      (let* v := load key in
       let* r := lift match v with
                      | RNum n => do z <- py_round n; ok (RNum (PInt z))
                      | _ => raise TypeError "type doesn't define __round__ method"
                      end in
       store key r ;;
       round_fields rest)%M
  end.

Definition money_fields : list string :=
  ["base_freight"; "delivery_fee"; "total_cost"; "shared_vehicle_cost";
   "full_vehicle_cost"; "customer_price"].

(** The arguments of [calculate_shipping_rate]. *)
Record request := Request {
  distance_km : pyval;
  actual_weight_kg : pyval;
  quantity : pyval;
  vol_length_cm : pyval;
  vol_width_cm : pyval;
  vol_height_cm : pyval;
  pickup_zone_name : pyval;
  delivery_zone_name : pyval;
  delivery_point : pyval;
  goods_type : pyval;
  vehicle_type : pyval;
  proposed_coefficient : pyval
}.

(** A call that passes only the two required arguments. *)
Definition default_request (distance actual_weight : pyval) : request := {|
  distance_km := distance;
  actual_weight_kg := actual_weight;
  quantity := VNum (PInt 1);
  vol_length_cm := VNone;
  vol_width_cm := VNone;
  vol_height_cm := VNone;
  pickup_zone_name := VStr (utf8 "Vùng còn lại");
  delivery_zone_name := VStr (utf8 "Vùng còn lại");
  delivery_point := VStr [];
  goods_type := VStr (utf8 "Hàng đóng hộp tiêu dùng");
  vehicle_type := VStr (utf8 "Tải");
  proposed_coefficient := VNum (PFloat 1.0)
|}.

(** [delivery_point and delivery_point.lower().strip() == "tp vinh"] *)
Definition is_vinh `{Interpreter} (delivery_point : pyval) : res bool :=
  if truthy delivery_point then
    match delivery_point with
    | VStr s => ok (pystr_eqb (str_strip (uc_lower s)) (utf8 "tp vinh"))
    | _ => raise AttributeError
             ("'" +:+ type_name delivery_point +:+ "' object has no attribute 'lower'")
    end
  else ok false.

(** [a * b * c * ...], from the left. *)
Fixpoint product_from (acc : pynum) (l : list pynum) : res pynum :=
  match l with
  | [] => ok acc
  | x :: rest => do p <- num_mul acc x; product_from p rest
  end.

Definition rate_body `{Interpreter} (cfg : config) (rq : request) : M unit :=
  (let* distance := lift (py_float (distance_km rq)) in
   let* actual_weight :=
     lift (if is_none (actual_weight_kg rq) then ok (PInt 0)
           else do f <- py_float (actual_weight_kg rq); ok (PFloat f)) in
   let* qty := lift (if is_none (quantity rq) then ok 1 else py_int (quantity rq)) in
   let* proposed_coef :=
     lift (if is_none (proposed_coefficient rq) then ok (PFloat 1.0)
           else do f <- py_float (proposed_coefficient rq); ok (PFloat f)) in
   let* factor := lift (do c <- cfg_item (constants cfg) "constants";
                        dict_item c "vol_weight_factor") in
   let* vol_weight :=
     lift (calculate_weight_from_dimensions
             (vol_length_cm rq) (vol_width_cm rq) (vol_height_cm rq) factor) in
   let* vol_weight_total := lift (num_mul vol_weight (PInt qty)) in
   let* actual_weight_total := lift (num_mul actual_weight (PInt qty)) in
   let chargeable_weight :=
     if num_gt vol_weight_total (PInt 0)
     then num_max actual_weight_total vol_weight_total
     else actual_weight_total in
   let chargeable_weight :=
     if num_le chargeable_weight (PInt 0) then PInt 1 else chargeable_weight in
   store "chargeable_weight" (RNum chargeable_weight) ;;
   store "volumetric_weight" (RNum vol_weight_total) ;;
   store "actual_weight" (RNum actual_weight_total) ;;
   let* km_coef := lift (get_km_coefficient cfg (VNum (PFloat distance))) in
   let* pickup_zone_coef := lift (get_zone_coefficient cfg (pickup_zone_name rq)) in
   let* delivery_zone_coef := lift (get_zone_coefficient cfg (delivery_zone_name rq)) in
   let* goods_coef := lift (get_goods_coefficient cfg (goods_type rq)) in
   let* vehicle_coef := lift (get_vehicle_coefficient cfg (vehicle_type rq)) in
   let* size_coef :=
     lift (do m <- py_max [py_or (vol_length_cm rq) (VNum (PInt 0));
                           py_or (vol_width_cm rq) (VNum (PInt 0));
                           py_or (vol_height_cm rq) (VNum (PInt 0))];
           get_size_coefficient cfg m) in
   let max_zone_coef := num_max pickup_zone_coef delivery_zone_coef in
   store "coefficients" (RDict (list_to_map [
     ("km", km_coef); ("zone", max_zone_coef); ("goods", goods_coef);
     ("vehicle", vehicle_coef); ("size", size_coef); ("proposed", proposed_coef) ])) ;;
   let base_rate := get_base_rate chargeable_weight in
   let* base_freight :=
     lift (product_from chargeable_weight
             [km_coef; max_zone_coef; goods_coef; size_coef; proposed_coef; base_rate]) in
   store "base_freight" (RNum base_freight) ;;
   let* vinh := lift (is_vinh (delivery_point rq)) in
   let* delivery_fee :=
     lift (if vinh then
             do c <- cfg_item (constants cfg) "constants";
             do b <- dict_item c "delivery_vinh_base";
             do c' <- cfg_item (constants cfg) "constants";
             do r <- dict_item c' "delivery_vinh_rate";
             num_mul b r
           else ok (PInt 0)) in
   store "delivery_fee" (RNum delivery_fee) ;;
   let* total_cost := lift (num_add base_freight delivery_fee) in
   store "total_cost" (RNum total_cost) ;;
   let* shared_vehicle_cost := lift (num_mul base_freight (PFloat 0.9)) in
   store "shared_vehicle_cost" (RNum shared_vehicle_cost) ;;
   let* full_vehicle_rate := lift (do c <- cfg_item (constants cfg) "constants";
                                   dict_item c "full_vehicle_rate") in
   let* full_vehicle_cost :=
     lift (product_from chargeable_weight
             [km_coef; max_zone_coef; goods_coef; vehicle_coef; proposed_coef;
              full_vehicle_rate]) in
   store "full_vehicle_cost" (RNum full_vehicle_cost) ;;
   store "customer_price" (RNum total_cost) ;;
   round_fields money_fields)%M.

(** The three [except] clauses, in order. *)
Definition error_message (e : exn) : string :=
  match exn_cls e with
  | ValueError | TypeError => "Lỗi giá trị đầu vào: " +:+ exn_msg e
  | KeyError => "Lỗi cấu hình: Thiếu khóa " +:+ exn_msg e +:+ " trong cấu hình nhúng"
  | _ => "Lỗi hệ thống: " +:+ exn_msg e
  end.

Definition calculate_shipping_rate `{Interpreter} (cfg : config) (rq : request)
  : gmap string rval :=
  match rate_body cfg rq {["error" := RNone]} with
  | (inr _, results) => results
  | (inl e, results) => <["error" := RStr (error_message e)]> results
  end.

(** ** The character tables on Vietnamese text *)

(** The interpreter's tables on the characters U+0000..U+017F, the letters
    U+01A0, U+01A1, U+01AF, U+01B0 and U+1E00..U+1EFF, which is where Latin
    and Vietnamese text lives; the white-space characters are those of all of
    Unicode. Every other character is taken as a caseless symbol. *)
Module Vi.

Definition in_range (lo hi c : N) : bool := ((lo <=? c) && (c <=? hi))%N.

(** The simple lower-case mapping. *)
Definition tolower (c : N) : N :=
  if in_range 65 90 c then (c + 32)%N
  else if in_range 192 222 c && negb (c =? 215)%N then (c + 32)%N
  else if in_range 256 383 c then
    if (c =? 304)%N then 105%N
    else if (c =? 376)%N then 255%N
    else if (in_range 256 303 c || in_range 306 311 c || in_range 330 375 c) && N.even c
    then (c + 1)%N
    else if (in_range 313 328 c || in_range 377 382 c) && N.odd c then (c + 1)%N
    else c
  else if (c =? 416)%N || (c =? 431)%N then (c + 1)%N
  else if in_range 7680 7935 c then
    if (c =? 7838)%N then 223%N
    else if ((c <=? 7829)%N || (7840 <=? c)%N) && N.even c then (c + 1)%N
    else c
  else c.

(** [str.lower()]: the simple mapping, but for U+0130. *)
Definition lower (s : pystr) : pystr :=
  flat_map (fun c => if (c =? 304)%N then [105; 775]%N else [tolower c]) s.

Definition isspace (c : N) : bool :=
  in_range 9 13 c || in_range 28 32 c || (c =? 133)%N || (c =? 160)%N
  || (c =? 5760)%N || in_range 8192 8202 c || (c =? 8232)%N || (c =? 8233)%N
  || (c =? 8239)%N || (c =? 8287)%N || (c =? 12288)%N.

Definition decimal (c : N) : option N :=
  if in_range 48 57 c then Some (c - 48)%N else None.

Definition isalnum (c : N) : bool :=
  in_range 48 57 c || in_range 65 90 c || in_range 97 122 c
  || (c =? 170)%N || (c =? 178)%N || (c =? 179)%N || (c =? 181)%N || (c =? 185)%N
  || (c =? 186)%N || in_range 188 190 c
  || (in_range 192 255 c && negb (c =? 215)%N && negb (c =? 247)%N)
  || in_range 256 383 c
  || (c =? 416)%N || (c =? 417)%N || (c =? 431)%N || (c =? 432)%N
  || in_range 7680 7935 c.

(** Lower-case letters that share their upper case with another letter are
    matched alike when case is ignored. *)
Definition case_twin (a b : N) : bool :=
  (((a =? 105) && (b =? 305)) || ((a =? 305) && (b =? 105))
   || ((a =? 115) && (b =? 383)) || ((a =? 383) && (b =? 115))
   || ((a =? 181) && (b =? 956))
   || ((a =? 7777) && (b =? 7835)) || ((a =? 7835) && (b =? 7777)))%N.

Definition ieq (p c : N) : bool :=
  (tolower c =? tolower p)%N || case_twin (tolower p) (tolower c).

Definition tables : Interpreter := {|
  uc_lower := lower;
  uc_isspace := isspace;
  uc_decimal := decimal;
  uc_isalnum := isalnum;
  uc_ieq := ieq;
  max_str_digits := 4300
|}.

End Vi.

(** ** The HTTP handler of [app.py] *)















(** ** Regular expressions, as [re.search] matches them *)

(** An item of a character set. *)
Inductive cset_item :=
| CChar (c : N)      (* a literal character *)
| CWord              (* \w *)
| CSpace             (* \s *)
| CDigit.            (* \d *)

(** The patterns of the extractor: their repetitions are over one character
    set, their groups are numbered. *)
Inductive regex :=
| RChar (c : N)
| RSet (items : list cset_item)
| RSeq (r1 r2 : regex)
| RAlt (r1 r2 : regex)
| ROpt (r : regex)                              (* r? *)
| RStar (greedy : bool) (items : list cset_item) (* [..]* and [..]*? *)
| RGroup (n : nat) (r : regex)
| REnd                                          (* $ *)
| REmpty.

(** The groups set so far, the latest first. *)
Definition captures : Type := list (nat * pystr).

Fixpoint group (n : nat) (caps : captures) : option pystr :=
  match caps with
  | [] => None
  | (m, s) :: rest => if Nat.eqb n m then Some s else group n rest
  end.

Definition item_matches `{Interpreter} (ic : bool) (x : N) (i : cset_item) : bool :=
  match i with
  | CChar c => if ic then uc_ieq c x else (c =? x)%N
  | CWord => uc_isalnum x || (x =? 95)%N
  | CSpace => uc_isspace x
  | CDigit => match uc_decimal x with Some _ => true | None => false end
  end.

Definition set_matches `{Interpreter} (ic : bool) (items : list cset_item) (x : N) : bool :=
  existsb (item_matches ic x) items.

(** A repetition takes the characters of its set one by one; a greedy one
    tries the longest run first, a lazy one the shortest. *)
Fixpoint star_match {A} (p : N -> bool) (greedy : bool) (k : pystr -> option A)
    (s : pystr) : option A :=
  match s with
  | [] => k []
  | c :: s' =>
      if p c then
        if greedy then
          match star_match p greedy k s' with
          | Some r => Some r
          | None => k s
          end
        else
          match k s with
          | Some r => Some r
          | None => star_match p greedy k s'
          end
      else k s
  end.

(** Backtracking match of [r] at the head of [s]; [k] is what remains to be
    matched after it. [ic] is the IGNORECASE flag. *)
Fixpoint rmatch `{Interpreter} (ic : bool) (r : regex) (s : pystr) (caps : captures)
    (k : pystr -> captures -> option captures) : option captures :=
  match r with
  | RChar c =>
      match s with
      | x :: s' => if item_matches ic x (CChar c) then k s' caps else None
      | [] => None
      end
  | RSet items =>
      match s with
      | x :: s' => if set_matches ic items x then k s' caps else None
      | [] => None
      end
  | RSeq r1 r2 => rmatch ic r1 s caps (fun s' caps' => rmatch ic r2 s' caps' k)
  | RAlt r1 r2 =>
      match rmatch ic r1 s caps k with
      | Some c => Some c
      | None => rmatch ic r2 s caps k
      end
  | ROpt r1 =>
      match rmatch ic r1 s caps k with
      | Some c => Some c
      | None => k s caps
      end
  | RStar greedy items =>
      star_match (set_matches ic items) greedy (fun s' => k s' caps) s
  | RGroup n r1 =>
      rmatch ic r1 s caps
        (fun s' caps' => k s' ((n, take (length s - length s') s) :: caps'))
  | REnd =>
      match s with
      | [] => k s caps
      | [c] => if (c =? 10)%N then k s caps else None
      | _ => None
      end
  | REmpty => k s caps
  end.

(** [re.search]: the first position from the left at which the pattern
    matches. *)
Fixpoint search `{Interpreter} (ic : bool) (r : regex) (s : pystr) : option captures :=
  match rmatch ic r s [] (fun _ caps => Some caps) with
  | Some caps => Some caps
  | None =>
      match s with
      | [] => None
      | _ :: s' => search ic r s'
      end
  end.

(** *** Writing patterns *)

Definition seq (l : list regex) : regex := foldr RSeq REmpty l.

Fixpoint alt (l : list regex) : regex :=
  match l with
  | [] => REmpty
  | [r] => r
  | r :: rest => RAlt r (alt rest)
  end.

(** A literal text. *)
Definition lit (s : string) : regex := seq (map RChar (utf8 s)).

Definition chr (s : string) : N := default 0%N (head (utf8 s)).

(** [[..]+] and [[..]+?] *)
Definition plus (greedy : bool) (items : list cset_item) : regex :=
  RSeq (RSet items) (RStar greedy items).

(** [\d+(?:[.,]\d+)?] *)
Definition number : regex :=
  RSeq (plus true [CDigit])
       (ROpt (RSeq (RSet [CChar (chr "."); CChar (chr ",")]) (plus true [CDigit]))).

(** [\s*] and [\s+] *)
Definition ws : regex := RStar true [CSpace].
Definition ws1 : regex := plus true [CSpace].

(** [[\w\s\d\.,/-]] *)
Definition place_chars : list cset_item :=
  [CWord; CSpace; CDigit; CChar (chr "."); CChar (chr ","); CChar (chr "/"); CChar (chr "-")].

(** [(?:,|\.|$|\n)] *)
Definition terminator : regex :=
  alt [RChar (chr ","); RChar (chr "."); REnd; RChar 10%N].

(** [\s*[:=]?\s*] *)
Definition label_sep : regex :=
  seq [ws; ROpt (RSet [CChar (chr ":"); CChar (chr "=")]); ws].

(** *** The patterns of [parse_user_query] *)

Definition from_pattern : regex :=
  seq [alt [lit "từ"; lit "chở từ"; lit "vận chuyển từ"; lit "đi từ"];
       ws1; RGroup 1 (plus false place_chars); ws;
       alt [lit "đến"; lit "tới"; lit "về"; REnd]].

Definition to_pattern : regex :=
  seq [alt [lit "đến"; lit "tới"; lit "về"];
       ws1; RGroup 1 (plus false place_chars); terminator].

Definition delivery_pattern : regex :=
  seq [lit "giao"; ws; ROpt (alt [lit "tận nơi"; lit "tới"]); ws;
       RGroup 1 (plus false place_chars); terminator].

Definition weight_pattern : regex :=
  seq [RGroup 1 number; ws;
       RGroup 2 (alt [lit "tấn"; lit "kg"; lit "kilogam"; lit "kilogram"; lit "cân"])].

Definition quantity_pattern : regex :=
  seq [lit "số kiện"; label_sep; RGroup 1 (plus true [CDigit])].

Definition times : regex := RSet [CChar (chr "x"); CChar (chr "*"); CChar (chr "×")].

Definition dim_pattern : regex :=
  seq [lit "kích thước"; label_sep;
       RGroup 1 number; ws; times; ws;
       RGroup 2 number; ws; times; ws;
       RGroup 3 number; ws;
       ROpt (RGroup 4 (alt [lit "cm"; lit "centimet"]))].

Definition distance_pattern : regex :=
  seq [RGroup 1 number; ws;
       RGroup 2 (alt [lit "km"; lit "kilomet"; lit "kilometer"])].

Definition goods_pattern : regex :=
  seq [lit "loại hàng"; label_sep; RGroup 1 (plus false [CWord; CSpace]); terminator].

Definition vehicle_pattern : regex :=
  seq [lit "loại xe"; label_sep; RGroup 1 (plus false [CWord; CSpace]); terminator].

Definition coef_pattern : regex :=
  seq [lit "hệ số đề xuất"; label_sep; RGroup 1 number].

(** ** parse_user_query *)

(** [round(x, 2)] on a [float]: the decimal with two places nearest to [x],
    ties to the even one, as the nearest [float]. *)
Definition py_round2 (x : float) : float :=
  match Prim2SF x with
  | S754_finite s m e =>
      match float_val x with
      | XFin q =>
          let mag := float_of_ratio (Z.abs (round_half_even (q * 100))) 100 in
          if s then (- mag)%float else mag
      | _ => x
      end
  | _ => x
  end.

(** [m.group(n)] on a match; a group that took no part is [None]. *)
Definition match_group (n : nat) (caps : captures) : res pystr :=
  match group n caps with
  | Some s => ok s
  | None => raise AttributeError "'NoneType' object has no attribute"
  end.

(** [s.replace(',', '.')] *)
Definition comma_to_dot (s : pystr) : pystr :=
  map (fun c => if (c =? chr ",")%N then chr "." else c) s.

(** [float(m.group(n).replace(',', '.'))] *)
Definition group_float `{Interpreter} (n : nat) (caps : captures) : res float :=
  do g <- match_group n caps;
  float_of_str (comma_to_dot g).

(** [m.group(1).strip()] when the pattern matched. *)
Definition group_text `{Interpreter} (m : option captures) : res (option pystr) :=
  match m with
  | Some caps => do g <- match_group 1 caps; ok (Some (str_strip g))
  | None => ok None
  end.

(** [confidence += w] when the pattern matched. *)
Definition bump {A} (m : option A) (w : float) (confidence : float) : float :=
  match m with
  | Some _ => (confidence + w)%float
  | None => confidence
  end.

(** The dictionary [parse_user_query] returns. *)
Record parsed := Parsed {
  p_from_location : option pystr;
  p_to_location : option pystr;
  p_delivery_point : option pystr;
  p_weight : option float;
  p_dimensions : option (float * float * float);
  p_quantity : Z;
  p_distance : option float;
  p_goods_type : option pystr;
  p_vehicle_type : option pystr;
  p_proposed_coefficient : float;
  p_confidence : float
}.

Definition parse_user_query `{Interpreter} (query : pystr) : res parsed :=
  let confidence := 0%float in
  let query_lower := uc_lower query in
  let from_match := search true from_pattern query in
  let to_match := search true to_pattern query in
  let delivery_match := search true delivery_pattern query in
  do from_location <- group_text from_match;
  let confidence := bump from_match 0.2 confidence in
  do to_location <- group_text to_match;
  let confidence := bump to_match 0.2 confidence in
  do delivery_point <- group_text delivery_match;
  let confidence := bump delivery_match 0.1 confidence in
  let weight_match := search false weight_pattern query_lower in
  do weight <-
    match weight_match with
    | Some caps =>
        do weight_value <- group_float 1 caps;
        do unit <- match_group 2 caps;
        ok (Some (if pystr_eqb unit (utf8 "tấn") then (weight_value * 1000)%float
                  else weight_value))
    | None => ok None
    end;
  let confidence := bump weight_match 0.2 confidence in
  let quantity_match := search true quantity_pattern query in
  do quantity <-
    match quantity_match with
    | Some caps => do g <- match_group 1 caps; int_of_str g
    | None => ok 1
    end;
  let confidence := bump quantity_match 0.1 confidence in
  let dim_match := search true dim_pattern query in
  do dimensions <-
    match dim_match with
    | Some caps =>
        do l <- group_float 1 caps;
        do w <- group_float 2 caps;
        do h <- group_float 3 caps;
        ok (Some (l, w, h))
    | None => ok None
    end;
  let confidence := bump dim_match 0.15 confidence in
  let distance_match := search false distance_pattern query_lower in
  do distance <-
    match distance_match with
    | Some caps => do d <- group_float 1 caps; ok (Some d)
    | None => ok None
    end;
  let confidence := bump distance_match 0.2 confidence in
  let goods_match := search true goods_pattern query in
  do goods_type <- group_text goods_match;
  let confidence := bump goods_match 0.1 confidence in
  let vehicle_match := search true vehicle_pattern query in
  do vehicle_type <- group_text vehicle_match;
  let confidence := bump vehicle_match 0.1 confidence in
  let coef_match := search true coef_pattern query in
  do proposed_coefficient <-
    match coef_match with
    | Some caps => group_float 1 caps
    | None => ok 1%float
    end;
  let confidence := bump coef_match 0.1 confidence in
  ok {| p_from_location := from_location; p_to_location := to_location;
        p_delivery_point := delivery_point; p_weight := weight;
        p_dimensions := dimensions; p_quantity := quantity; p_distance := distance;
        p_goods_type := goods_type; p_vehicle_type := vehicle_type;
        p_proposed_coefficient := proposed_coefficient;
        p_confidence := py_round2 confidence |}.

(** What the program relies on in the character tables: a decimal digit has
    a value below ten, the ASCII digits are the decimal digits of ASCII, no
    digit is white space, and the uncased characters "." and "," are matched
    by themselves alone when case is ignored. *)
Class TableLaws `{Interpreter} : Prop := {
  decimal_below_ten : forall c d, uc_decimal c = Some d -> (d < 10)%N;
  decimal_ascii : forall c, (c < 128)%N ->
    uc_decimal c = if is_digit c then Some (c - 48)%N else None;
  decimal_not_space : forall c d, uc_decimal c = Some d -> uc_isspace c = false;
  ieq_dot : forall x, uc_ieq (chr ".") x = true -> x = chr ".";
  ieq_comma : forall x, uc_ieq (chr ",") x = true -> x = chr ","
}.

(** A text and the groups it sets when a pattern matches all of it. *)
Inductive matches `{Interpreter} (ic : bool) : regex -> pystr -> captures -> Prop :=
| M_char c x :
    item_matches ic x (CChar c) = true -> matches ic (RChar c) [x] []
| M_set items x :
    set_matches ic items x = true -> matches ic (RSet items) [x] []
| M_seq r1 r2 s1 s2 n1 n2 :
    matches ic r1 s1 n1 -> matches ic r2 s2 n2 ->
    matches ic (RSeq r1 r2) (s1 ++ s2) (n2 ++ n1)
| M_alt_l r1 r2 s n : matches ic r1 s n -> matches ic (RAlt r1 r2) s n
| M_alt_r r1 r2 s n : matches ic r2 s n -> matches ic (RAlt r1 r2) s n
| M_opt_some r s n : matches ic r s n -> matches ic (ROpt r) s n
| M_opt_none r : matches ic (ROpt r) [] []
| M_star greedy items s :
    Forall (fun x => set_matches ic items x = true) s ->
    matches ic (RStar greedy items) s []
| M_group n r s new :
    matches ic r s new -> matches ic (RGroup n r) s ((n, s) :: new)
| M_end : matches ic REnd [] []
| M_empty : matches ic REmpty [] [].

(** The digits of [g] do not exceed the limit of the interpreter. *)
Definition within_digit_limit `{Interpreter} (g : pystr) : bool :=
  Nat.eqb max_str_digits 0 || (length g <=? max_str_digits)%nat.

(** The package count of the text, when it has one, is within that limit. *)
Definition quantity_within_limit `{Interpreter} (query : pystr) : bool :=
  match search true quantity_pattern query with
  | Some caps =>
      match group 1 caps with
      | Some g => within_digit_limit g
      | None => true
      end
  | None => true
  end.

(** The fields of the extractor, in the order of the source, and the
    increment of each in hundredths. *)
Definition matched_fields `{Interpreter} (query : pystr) : list bool :=
  let found (m : option captures) := match m with Some _ => true | None => false end in
  [found (search true from_pattern query);
   found (search true to_pattern query);
   found (search true delivery_pattern query);
   found (search false weight_pattern (uc_lower query));
   found (search true quantity_pattern query);
   found (search true dim_pattern query);
   found (search false distance_pattern (uc_lower query));
   found (search true goods_pattern query);
   found (search true vehicle_pattern query);
   found (search true coef_pattern query)].

Definition increments : list Z := [20; 20; 10; 20; 10; 15; 20; 10; 10; 10].

Fixpoint score (flags : list bool) (weights : list Z) : Z :=
  match flags, weights with
  | b :: flags', w :: weights' => (if b then w else 0) + score flags' weights'
  | _, _ => 0
  end.

(** A text whose package count has 4301 digits. *)
Definition oversized_query : pystr := utf8 "số kiện: " ++ repeat 49%N 4301.

(** A request that names every field. *)
Definition full_query : pystr :=
  utf8 "Chở từ Hà Nội tới TP Vinh, giao tận nơi TP Vinh, 2,5 tấn, số kiện: 3, kích thước: 120x80x60 cm, 300 km, loại hàng: Hàng dễ vỡ, loại xe: Tải, hệ số đề xuất: 1.2".

(** A pattern without groups. *)
Fixpoint groupless (r : regex) : bool :=
  match r with
  | RSeq r1 r2 | RAlt r1 r2 => groupless r1 && groupless r2
  | ROpt r1 => groupless r1
  | RGroup _ _ => false
  | _ => true
  end.

(** A decimal digit of the character tables. *)
Definition isdec `{Interpreter} (c : N) : bool :=
  match uc_decimal c with Some _ => true | None => false end.

(** Digits, then possibly a point or a comma and digits. *)
Definition numeral `{Interpreter} (g : pystr) : Prop :=
  exists d1 rest,
    g = d1 ++ rest /\ d1 <> [] /\ Forall (fun c => isdec c = true) d1
    /\ (rest = []
        \/ exists sep d2, rest = sep :: d2 /\ (sep = chr "." \/ sep = chr ",")
                          /\ d2 <> [] /\ Forall (fun c => isdec c = true) d2).

(** ASCII digits, then possibly a point and ASCII digits. *)
Definition ascii_numeral (a : pystr) : Prop :=
  exists d1 rest,
    a = d1 ++ rest /\ d1 <> [] /\ Forall (fun c => is_digit c = true) d1
    /\ (rest = []
        \/ exists d2, rest = 46%N :: d2 /\ d2 <> []
                      /\ Forall (fun c => is_digit c = true) d2).

(** The increments as the source writes them, and the sum the extractor
    accumulates in floating point. *)
Definition float_increments : list float :=
  [0.2; 0.2; 0.1; 0.2; 0.1; 0.15; 0.2; 0.1; 0.1; 0.1]%float.

Fixpoint accumulate (flags : list bool) (weights : list float) (confidence : float) : float :=
  match flags, weights with
  | b :: flags', w :: weights' =>
      accumulate flags' weights' (if b then (confidence + w)%float else confidence)
  | _, _ => confidence
  end.

(** The example of the specification: 156 km, 1000 kg, everything else by
    default. *)
Definition example_request : request :=
  default_request (VNum (PInt 156)) (VNum (PInt 1000)).


(** The example with a delivery to Vinh. *)
Definition vinh_request : request := {|
  distance_km := VNum (PInt 156);
  actual_weight_kg := VNum (PInt 1000);
  quantity := VNum (PInt 1);
  vol_length_cm := VNone;
  vol_width_cm := VNone;
  vol_height_cm := VNone;
  pickup_zone_name := VStr (utf8 "Vùng còn lại");
  delivery_zone_name := VStr (utf8 "Vùng còn lại");
  delivery_point := VStr (utf8 " TP Vinh ");
  goods_type := VStr (utf8 "Hàng đóng hộp tiêu dùng");
  vehicle_type := VStr (utf8 "Tải");
  proposed_coefficient := VNum (PFloat 1.0)
|}.

(** The embedded distance table. *)
Definition km_table : list band := default [] (km_coefficients DEFAULT_CONFIG).

(** ** Reading a result *)

(** The call succeeded: [results["error"]] is still [None]. *)
Definition succeeded (r : gmap string rval) : Prop := r !! "error" = Some RNone.

(** A numeric field of the result. *)
Definition field (r : gmap string rval) (key : string) : option pynum :=
  match r !! key with
  | Some (RNum n) => Some n
  | _ => None
  end.

(** An entry of [results["coefficients"]]. *)
Definition coefficient (r : gmap string rval) (key : string) : option pynum :=
  match r !! "coefficients" with
  | Some (RDict d) => d !! key
  | _ => None
  end.

(** [z] is an integer nearest to the number [x]. *)
Definition nearest_integer (x : pynum) (z : Z) : Prop :=
  exists q, num_val x = XFin q /\ (Qabs (inject_Z z - q) <= 1 # 2)%Q.

(** The thresholds of a table are in ascending order. *)
Fixpoint ascending (l : list pynum) : bool :=
  match l with
  | a :: (b :: _) as l' => num_le a b && ascending l'
  | _ => true
  end.

Definition thresholds (table : list band) : list pynum := map fst table.
Definition coefficients (table : list band) : list pynum := map snd table.


(** The value stored under a monetary key is the rounding of [x]. *)
Definition rounded (r : gmap string rval) (key : string) (x : pynum) : Prop :=
  exists z, field r key = Some (PInt z) /\ py_round x = ok z /\ nearest_integer x z.

(** A number other than NaN: the only one not below or equal to itself. *)
Definition is_number (x : pynum) : bool := num_le x x.

(** The two band lookups of the calculator, each with its table. *)
Inductive band_lookup_of (cfg : config) (table : list band)
  : (pyval -> res pynum) -> Prop :=
| lookup_km :
    km_coefficients cfg = Some table ->
    band_lookup_of cfg table (get_km_coefficient cfg)
| lookup_size :
    size_coefficients cfg = Some table ->
    band_lookup_of cfg table (get_size_coefficient cfg).

(** A table sorted by threshold whose coefficients descend. *)
Definition decreasing_table : list band := [fband 0 2.0; fband 10 1.0].

Definition decreasing_config : config := {|
  km_coefficients := Some decreasing_table;
  zone_coefficients := zone_coefficients DEFAULT_CONFIG;
  goods_coefficients := goods_coefficients DEFAULT_CONFIG;
  vehicle_coefficients := vehicle_coefficients DEFAULT_CONFIG;
  size_coefficients := size_coefficients DEFAULT_CONFIG;
  constants := constants DEFAULT_CONFIG;
  zone_mapping := zone_mapping DEFAULT_CONFIG
|}.

(** A shipment of 1e308 kg in 100 packages: the total weight overflows to
    infinity. *)
Definition overflow_request : request := {|
  distance_km := VNum (PInt 100);
  actual_weight_kg := VNum (PFloat 1e308);
  quantity := VNum (PInt 100);
  vol_length_cm := VNone;
  vol_width_cm := VNone;
  vol_height_cm := VNone;
  pickup_zone_name := VStr (utf8 "Vùng còn lại");
  delivery_zone_name := VStr (utf8 "Vùng còn lại");
  delivery_point := VStr [];
  goods_type := VStr (utf8 "Hàng đóng hộp tiêu dùng");
  vehicle_type := VStr (utf8 "Tải");
  proposed_coefficient := VNum (PFloat 1.0)
|}.

(** A configuration whose distance table is empty. *)
Definition empty_km_config : config := {|
  km_coefficients := Some [];
  zone_coefficients := zone_coefficients DEFAULT_CONFIG;
  goods_coefficients := goods_coefficients DEFAULT_CONFIG;
  vehicle_coefficients := vehicle_coefficients DEFAULT_CONFIG;
  size_coefficients := size_coefficients DEFAULT_CONFIG;
  constants := constants DEFAULT_CONFIG;
  zone_mapping := zone_mapping DEFAULT_CONFIG
|}.


(** The delivery point is a non-empty text which, in lower case and
    stripped, reads "tp vinh". *)
Definition names_vinh `{Interpreter} (delivery_point : pyval) : Prop :=
  exists s, delivery_point = VStr s /\ s <> []
            /\ str_strip (uc_lower s) = utf8 "tp vinh".

(** * Properties *)

(** ** Numbers *)

Lemma x_le_trans a b c : x_le a b = true -> x_le b c = true -> x_le a c = true.
Proof.
  destruct a, b, c; simpl; try congruence.
  rewrite !Qle_bool_iff. apply Qle_trans.
Qed.

Lemma x_le_not_lt a b : x_le a b = true -> x_lt b a = false.
Proof.
  destruct a, b; simpl; try congruence.
  intros ->. reflexivity.
Qed.

Lemma x_lt_le a b : x_lt a b = true -> x_le a b = true.
Proof.
  destruct a, b; simpl; try congruence.
  rewrite negb_true_iff, Qle_bool_iff. intros Hn.
  destruct (Qlt_le_dec q q0) as [Hl|Hl].
  - apply Qlt_le_weak, Hl.
  - apply Qle_bool_iff in Hl. congruence.
Qed.

Lemma x_lt_not_le a b : x_lt a b = true -> x_le b a = false.
Proof.
  destruct a, b; simpl; try congruence.
  rewrite negb_true_iff. trivial.
Qed.

Lemma num_le_trans a b c : num_le a b = true -> num_le b c = true -> num_le a c = true.
Proof. apply x_le_trans. Qed.

Lemma round_half_even_nearest q :
  (Qabs (inject_Z (round_half_even q) - q) <= 1 # 2)%Q.
Proof.
  unfold round_half_even.
  pose proof (Qfloor_le q) as Hlo.
  pose proof (Qlt_floor q) as Hhi.
  set (f := Qfloor q) in *.
  assert (Hs : (inject_Z (f + 1) == inject_Z f + 1)%Q) by (rewrite inject_Z_plus; reflexivity).
  rewrite Hs in Hhi.
  apply Qabs_Qle_condition.
  destruct (Qcompare (q - inject_Z f) (1 # 2)) eqn:Hc.
  - apply Qeq_alt in Hc. destruct (Z.even f); [|rewrite Hs]; split; lra.
  - apply Qlt_alt in Hc. split; lra.
  - apply Qgt_alt in Hc. rewrite Hs. split; lra.
Qed.

Lemma py_round_nearest x z : py_round x = ok z -> nearest_integer x z.
Proof.
  destruct x as [n|f]; simpl.
  - intros [= ->]. exists (inject_Z z). split; [reflexivity|].
    apply Qabs_Qle_condition. split; lra.
  - unfold nearest_integer. simpl. destruct (float_val f); try discriminate.
    intros [= <-]. exists q. split; [reflexivity|apply round_half_even_nearest].
Qed.

(** ** The body of the [try] block *)

Lemma round_fields_spec keys : forall s s',
  NoDup keys -> round_fields keys s = (inr tt, s') ->
  (forall k, k ∈ keys -> exists n z,
      s !! k = Some (RNum n) /\ py_round n = ok z /\ s' !! k = Some (RNum (PInt z)))
  /\ (forall k, k ∉ keys -> s' !! k = s !! k).
Proof.
  induction keys as [|key keys IH]; intros s s' Hnd Hr.
  - simpl in Hr. injection Hr as <-. split; [intros k Hk; inversion Hk|reflexivity].
  - inversion_clear Hnd as [|? ? Hnotin Hnd'].
    simpl in Hr. cbv beta iota delta [mseq lift store load raise ok] in Hr.
    destruct (s !! key) as [v|] eqn:Hv; [|discriminate Hr].
    destruct v as [|n| |]; try discriminate Hr.
    cbv beta iota delta [rbind] in Hr.
    destruct (py_round n) as [e|z] eqn:Hz; [discriminate Hr|].
    destruct (IH _ _ Hnd' Hr) as [Hin Hout].
    split.
    + intros k Hk. apply elem_of_cons in Hk as [->|Hk].
      * exists n, z. split; [assumption|]. split; [assumption|].
        rewrite (Hout key Hnotin). apply lookup_insert_eq.
      * destruct (Hin k Hk) as (n' & z' & H1 & H2 & H3).
        exists n', z'. split; [|split; assumption].
        rewrite lookup_insert_ne in H1; [assumption|]. intros ->. contradiction.
    + intros k Hk. apply not_elem_of_cons in Hk as [Hne Hk].
      rewrite (Hout k Hk). apply lookup_insert_ne. congruence.
Qed.

Lemma money_fields_NoDup : NoDup money_fields.
Proof. apply (bool_decide_unpack _). vm_compute. reflexivity. Qed.

Lemma money_field_rounded pre s' k n :
  round_fields money_fields pre = (inr tt, s') ->
  k ∈ money_fields -> pre !! k = Some (RNum n) -> rounded s' k n.
Proof.
  intros Hr Hk Hpre.
  destruct (round_fields_spec _ _ _ money_fields_NoDup Hr) as [Hin _].
  destruct (Hin k Hk) as (n' & z & H1 & H2 & H3).
  rewrite Hpre in H1. injection H1 as <-.
  exists z. unfold field. rewrite H3. auto using py_round_nearest.
Qed.

Lemma other_field_kept pre s' k :
  round_fields money_fields pre = (inr tt, s') ->
  k ∉ money_fields -> s' !! k = pre !! k.
Proof.
  intros Hr Hk.
  destruct (round_fields_spec _ _ _ money_fields_NoDup Hr) as [_ Hout]. auto.
Qed.

Lemma rounded_same r r' k k' x :
  rounded r k x -> rounded r' k' x -> field r k = field r' k'.
Proof.
  intros (z & Hf & Hz & _) (z' & Hf' & Hz' & _).
  rewrite Hf, Hf'. rewrite Hz in Hz'. injection Hz' as <-. reflexivity.
Qed.

Ltac body_step H :=
  cbv beta iota zeta delta [mseq lift store mpure ok] in H;
  match type of H with
  | (match ?r with inl _ => _ | inr _ => _ end) = _ =>
      let E := fresh "E" in destruct r eqn:E; [discriminate H|]
  end.

Ltac in_list := apply (bool_decide_unpack _); vm_compute; reflexivity.
Ltac stored := repeat (rewrite lookup_insert_eq || (rewrite lookup_insert_ne by discriminate)).

Section Engine.
Context `{U : Interpreter}.

(** A successful call is a run of the body to its end. *)
Lemma succeeded_body cfg rq :
  succeeded (calculate_shipping_rate cfg rq) ->
  rate_body cfg rq {["error" := RNone]} = (inr tt, calculate_shipping_rate cfg rq).
Proof.
  unfold succeeded, calculate_shipping_rate.
  destruct (rate_body cfg rq {["error" := RNone]}) as [[e|[]] s]; [|reflexivity].
  rewrite lookup_insert_eq. discriminate.
Qed.


End Engine.

(** ** Weights *)



Section Weights.
Context `{U : Interpreter}.





End Weights.


(** ** Band tables *)

Lemma ascending_tail a l : ascending (a :: l) = true -> ascending l = true.
Proof. destruct l as [|b l]; simpl; [reflexivity|]. intros H. apply andb_true_iff in H. tauto. Qed.

Lemma ascending_head a b l : ascending (a :: b :: l) = true -> num_le a b = true.
Proof. simpl. intros H. apply andb_true_iff in H. tauto. Qed.

(** In an ascending list every element is at most every later one. *)
Lemma ascending_app_le pre x :
  ascending (pre ++ [x]) = true -> Forall (fun a => num_le a x = true) pre.
Proof.
  induction pre as [|a pre IH]; intros H; [constructor|].
  pose proof (IH (ascending_tail _ _ H)) as IHp.
  constructor; [|exact IHp].
  destruct pre as [|b pre]; simpl in H.
  - apply andb_true_iff in H. tauto.
  - apply ascending_head in H. inversion_clear IHp as [|? ? Hb _].
    exact (num_le_trans _ _ _ H Hb).
Qed.

Lemma ascending_app_l l1 l2 : ascending (l1 ++ l2) = true -> ascending l1 = true.
Proof.
  induction l1 as [|a l1 IH]; intros H; [reflexivity|].
  destruct l1 as [|b l1]; [reflexivity|].
  simpl in *. apply andb_true_iff in H as [H1 H2].
  rewrite H1. simpl. apply IH. exact H2.
Qed.

(** Sorting leaves an ascending table as it is. *)
Lemma sorted_bands_ascending table :
  ascending (thresholds table) = true -> sorted_bands table = table.
Proof.
  induction table as [|b rest IH]; intros H; [reflexivity|].
  simpl. rewrite (IH (ascending_tail _ _ H)).
  destruct rest as [|y rest]; [reflexivity|].
  simpl. apply ascending_head in H.
  unfold num_lt. rewrite (x_le_not_lt _ _ H). reflexivity.
Qed.

Lemma insert_band_cons b l : exists y l', insert_band b l = y :: l'.
Proof. destruct l as [|y l]; simpl; [eauto|]. destruct (num_lt _ _); eauto. Qed.

Lemma band_scan_number v l : forall acc, exists c, band_scan (VNum v) l acc = ok c.
Proof.
  induction l as [|[t c] l IH]; intros acc; simpl; [eauto|].
  unfold rbind, ok. destruct (num_ge v t); eauto.
Qed.

(** A lookup with a number in a table that is not empty returns. *)
Lemma band_lookup_total table v :
  table <> [] -> exists c, band_lookup table (VNum v) = ok c.
Proof.
  intros Hne. unfold band_lookup.
  destruct table as [|b rest]; [congruence|].
  simpl. destruct (insert_band_cons b (sorted_bands rest)) as (y & l' & ->).
  apply band_scan_number.
Qed.

Lemma band_scan_reached v pre t c rest : forall acc,
  Forall (fun b => num_le (fst b) v = true) (pre ++ [(t, c)]) ->
  band_scan (VNum v) ((pre ++ [(t, c)]) ++ rest) acc = band_scan (VNum v) rest c.
Proof.
  induction pre as [|[t' c'] pre IH]; intros acc Hall;
    inversion_clear Hall as [|? ? Ht Hall']; simpl in Ht;
    cbn [app band_scan py_compare rbind ok]; unfold num_ge; rewrite Ht.
  - reflexivity.
  - apply IH. exact Hall'.
Qed.

Lemma band_scan_stop v post acc :
  Forall (fun b => num_le (fst b) v = false) post ->
  band_scan (VNum v) post acc = ok acc.
Proof.
  destruct post as [|[t c] post]; [reflexivity|].
  intros Hall. inversion_clear Hall as [|? ? Ht _]. simpl in Ht.
  cbn [band_scan py_compare rbind ok]. unfold num_ge. rewrite Ht. reflexivity.
Qed.

(** The band reached last gives the coefficient. *)
Lemma band_lookup_split pre t c post v :
  ascending (thresholds (pre ++ (t, c) :: post)) = true ->
  num_le t v = true ->
  Forall (fun b => num_le (fst b) v = false) post ->
  band_lookup (pre ++ (t, c) :: post) (VNum v) = ok c.
Proof.
  intros Hasc Ht Hpost. unfold band_lookup.
  rewrite (sorted_bands_ascending _ Hasc).
  assert (Hpre : Forall (fun b => num_le (fst b) v = true) (pre ++ [(t, c)])).
  { apply Forall_app. split; [|repeat constructor; exact Ht].
    unfold thresholds in Hasc.
    replace (pre ++ (t, c) :: post) with ((pre ++ [(t, c)]) ++ post) in Hasc
      by (rewrite <- app_assoc; reflexivity).
    rewrite map_app in Hasc. apply ascending_app_l in Hasc.
    rewrite map_app in Hasc. apply ascending_app_le in Hasc.
    apply Forall_map in Hasc. eapply Forall_impl; [exact Hasc|].
    intros b Hb. simpl in Hb. exact (num_le_trans _ _ _ Hb Ht). }
  replace (pre ++ (t, c) :: post) with ((pre ++ [(t, c)]) ++ post)
    by (rewrite <- app_assoc; reflexivity).
  destruct ((pre ++ [(t, c)]) ++ post) as [|first l] eqn:El.
  { destruct pre; discriminate El. }
  rewrite <- El.
  rewrite band_scan_reached by exact Hpre.
  apply band_scan_stop. exact Hpost.
Qed.

Lemma band_lookup_below t0 c0 rest v :
  ascending (thresholds ((t0, c0) :: rest)) = true ->
  Forall (fun b => num_le (fst b) v = false) ((t0, c0) :: rest) ->
  band_lookup ((t0, c0) :: rest) (VNum v) = ok c0.
Proof.
  intros Hasc Hall. unfold band_lookup.
  rewrite (sorted_bands_ascending _ Hasc). apply band_scan_stop. exact Hall.
Qed.

(** A dimension of value zero is looked up as the integer 0, to the same
    effect. *)
Lemma num_le_zero v t : num_is_zero v = true -> num_le t (PInt 0) = num_le t v.
Proof.
  unfold num_is_zero, num_le. simpl (num_val (PInt 0)).
  destruct (num_val v) as [| |q|]; try discriminate.
  intros Hz. apply Qeq_bool_iff in Hz.
  destruct (num_val t) as [| |p|]; simpl; try reflexivity.
  apply eq_true_iff_eq. rewrite !Qle_bool_iff. rewrite Hz. reflexivity.
Qed.

Lemma band_scan_zero v l : forall acc,
  num_is_zero v = true ->
  band_scan (VNum (PInt 0)) l acc = band_scan (VNum v) l acc.
Proof.
  induction l as [|[t c] l IH]; intros acc Hz; [reflexivity|].
  cbn [band_scan py_compare rbind ok]. unfold num_ge.
  rewrite (num_le_zero v t Hz). destruct (num_le t v); [apply IH; exact Hz|reflexivity].
Qed.

Lemma band_lookup_or_zero table v :
  band_lookup table (py_or (VNum v) (VNum (PInt 0))) = band_lookup table (VNum v).
Proof.
  unfold py_or, truthy. destruct (num_is_zero v) eqn:Hz; [|reflexivity].
  simpl. unfold band_lookup. destruct (sorted_bands table); [reflexivity|].
  apply band_scan_zero. exact Hz.
Qed.

(** Both lookups of the calculator are [band_lookup] on their table. *)
Lemma band_lookup_of_eq cfg table lookup v :
  band_lookup_of cfg table lookup -> lookup (VNum v) = band_lookup table (VNum v).
Proof.
  intros [Hk|Hs].
  - unfold get_km_coefficient. rewrite Hk. reflexivity.
  - unfold get_size_coefficient. rewrite Hs. simpl. apply band_lookup_or_zero.
Qed.

(** C3: in a table with ascending thresholds the lookup returns the
    coefficient of the last band whose threshold the value reaches, the first
    band's coefficient when it reaches none, and the last band's coefficient
    for every value beyond the last threshold. *)
Theorem band_lookup_rule cfg table lookup v :
  band_lookup_of cfg table lookup ->
  ascending (thresholds table) = true ->
  (forall pre t c post,
      table = pre ++ (t, c) :: post ->
      num_le t v = true ->
      Forall (fun b => num_le (fst b) v = false) post ->
      lookup (VNum v) = ok c)
  /\ (forall t0 c0 rest,
        table = (t0, c0) :: rest ->
        Forall (fun b => num_le (fst b) v = false) table ->
        lookup (VNum v) = ok c0)
  /\ (forall pre t c,
        table = pre ++ [(t, c)] ->
        num_le t v = true ->
        lookup (VNum v) = ok c)
  /\ (table <> [] -> exists c, lookup (VNum v) = ok c).
Proof.
  intros Hl Hasc. rewrite (band_lookup_of_eq _ _ _ v Hl).
  repeat split.
  - intros pre t c post -> Ht Hpost. apply band_lookup_split; assumption.
  - intros t0 c0 rest -> Hall. apply band_lookup_below; assumption.
  - intros pre t c -> Ht. apply band_lookup_split; [assumption|assumption|constructor].
  - apply band_lookup_total.
Qed.

(** ** The lookup as a step function *)

(** A scan returns the coefficient it started with or one of the table. *)
Lemma band_scan_range v l : forall acc c,
  band_scan (VNum v) l acc = ok c -> c = acc \/ In c (coefficients l).
Proof.
  induction l as [|[t c'] l IH]; intros acc c; cbn [band_scan py_compare rbind ok].
  - intros [= <-]. left. reflexivity.
  - destruct (num_ge v t).
    + intros H. destruct (IH _ _ H) as [-> | Hin]; right; simpl; auto.
    + intros [= <-]. left. reflexivity.
Qed.

Lemma num_le_number_r a b : num_le a b = true -> is_number b = true.
Proof.
  unfold is_number, num_le. destruct (num_val a), (num_val b); simpl; try congruence.
  all: intros _; apply Qle_bool_iff, Qle_refl.
Qed.

(** With ascending coefficients a scan never returns less than it started
    with. *)
Lemma band_scan_lower v l : forall acc c,
  ascending (acc :: coefficients l) = true ->
  is_number acc = true ->
  band_scan (VNum v) l acc = ok c -> num_le acc c = true.
Proof.
  induction l as [|[t c'] l IH]; intros acc c Hasc Hacc; cbn [band_scan py_compare rbind ok].
  - intros [= <-]. exact Hacc.
  - pose proof (ascending_head _ _ _ Hasc) as Hle.
    destruct (num_ge v t).
    + intros H. apply (num_le_trans _ _ _ Hle).
      apply (IH c' c); [exact (ascending_tail _ _ Hasc)| |exact H].
      exact (num_le_number_r _ _ Hle).
    + intros [= <-]. exact Hacc.
Qed.

Lemma band_scan_monotone l : forall acc v w cv cw,
  ascending (acc :: coefficients l) = true ->
  is_number acc = true ->
  num_le v w = true ->
  band_scan (VNum v) l acc = ok cv ->
  band_scan (VNum w) l acc = ok cw ->
  num_le cv cw = true.
Proof.
  induction l as [|[t c] l IH]; intros acc v w cv cw Hasc Hacc Hvw;
    cbn [band_scan py_compare rbind ok].
  - intros [= <-] [= <-]. exact Hacc.
  - pose proof (ascending_head _ _ _ Hasc) as Hle.
    pose proof (ascending_tail _ _ Hasc) as Htl.
    pose proof (num_le_number_r _ _ Hle) as Hc.
    unfold num_ge. destruct (num_le t v) eqn:Htv.
    + rewrite (num_le_trans _ _ _ Htv Hvw). apply IH; assumption.
    + intros [= <-]. destruct (num_le t w).
      * intros Hw. apply (num_le_trans _ _ _ Hle).
        exact (band_scan_lower _ _ _ _ Htl Hc Hw).
      * intros [= <-]. exact Hacc.
Qed.

Lemma band_lookup_monotone table v w cv cw :
  ascending (thresholds table) = true ->
  ascending (coefficients table) = true ->
  Forall (fun c => is_number c = true) (coefficients table) ->
  num_le v w = true ->
  band_lookup table (VNum v) = ok cv ->
  band_lookup table (VNum w) = ok cw ->
  num_le cv cw = true.
Proof.
  intros Ht Hc Hn Hvw. unfold band_lookup.
  rewrite (sorted_bands_ascending _ Ht).
  destruct table as [|[t0 c0] rest]; [discriminate|].
  inversion_clear Hn as [|? ? Hc0 _]. simpl in Hc0.
  apply band_scan_monotone; [|exact Hc0|exact Hvw].
  change (ascending (c0 :: c0 :: coefficients rest) = true).
  change (ascending (c0 :: coefficients rest) = true) in Hc.
  cbn [ascending]. cbn [ascending] in Hc. rewrite Hc.
  unfold is_number in Hc0. rewrite Hc0. reflexivity.
Qed.

Lemma band_lookup_range table v c :
  ascending (thresholds table) = true ->
  band_lookup table (VNum v) = ok c -> In c (coefficients table).
Proof.
  intros Ht. unfold band_lookup. rewrite (sorted_bands_ascending _ Ht).
  destruct table as [|[t0 c0] rest]; [discriminate|].
  intros H. destruct (band_scan_range _ _ _ _ H) as [-> | Hin]; [left; reflexivity|exact Hin].
Qed.

Lemma num_lt_not_reached v (post : list band) :
  Forall (fun b => num_lt v (fst b) = true) post ->
  Forall (fun b => num_le (fst b) v = false) post.
Proof.
  intros H. eapply Forall_impl; [exact H|].
  intros b Hb. apply x_lt_not_le. exact Hb.
Qed.

(** C7, amended: with ascending thresholds the lookup takes its values among
    the coefficients of the table; it is non-decreasing in the value when the
    coefficients are numbers in ascending order; and a value at a threshold,
    or between it and the next one, takes that threshold's coefficient. *)
Theorem band_lookup_step_function cfg table lookup :
  band_lookup_of cfg table lookup ->
  ascending (thresholds table) = true ->
  (forall v c, lookup (VNum v) = ok c -> In c (coefficients table))
  /\ (ascending (coefficients table) = true ->
      Forall (fun c => is_number c = true) (coefficients table) ->
      forall v w cv cw,
        num_le v w = true ->
        lookup (VNum v) = ok cv -> lookup (VNum w) = ok cw ->
        num_le cv cw = true)
  /\ (forall pre t c post,
        table = pre ++ (t, c) :: post ->
        is_number t = true ->
        Forall (fun b => num_lt t (fst b) = true) post ->
        lookup (VNum t) = ok c
        /\ forall v,
             num_le t v = true ->
             Forall (fun b => num_lt v (fst b) = true) post ->
             lookup (VNum v) = ok c).
Proof.
  intros Hl Hasc. repeat split.
  - intros v c. rewrite (band_lookup_of_eq _ _ _ v Hl). apply band_lookup_range. exact Hasc.
  - intros Hc Hn v w cv cw Hvw.
    rewrite (band_lookup_of_eq _ _ _ v Hl), (band_lookup_of_eq _ _ _ w Hl).
    apply band_lookup_monotone; assumption.
  - subst table. rewrite (band_lookup_of_eq _ _ _ t Hl).
    apply band_lookup_split; [assumption|assumption|].
    apply num_lt_not_reached. assumption.
  - intros v Hv Hpost. subst table. rewrite (band_lookup_of_eq _ _ _ v Hl).
    apply band_lookup_split; [assumption|assumption|].
    apply num_lt_not_reached. assumption.
Qed.

Lemma km_table_100 pre post :
  pre = [fband 0 0.35] -> post = skipn 3 (default (@nil band) (km_coefficients DEFAULT_CONFIG)) ->
  km_coefficients DEFAULT_CONFIG = Some (pre ++ fband 50 0.35 :: fband 100 0.4 :: post).
Proof. intros -> ->. reflexivity. Qed.

(** C7, as stated, fails twice. A table sorted by threshold with descending
    coefficients gives a lookup that decreases; and in the embedded distance
    table every value from 50 up to but not including 100 takes 0.35 while
    100 takes 0.4, so the lookup is not continuous from the left at 100. *)
Lemma band_lookup_not_monotone :
  (ascending (thresholds decreasing_table) = true
   /\ num_le (PInt 5) (PInt 15) = true
   /\ get_km_coefficient decreasing_config (VNum (PInt 5)) = ok (PFloat 2.0)
   /\ get_km_coefficient decreasing_config (VNum (PInt 15)) = ok (PFloat 1.0)
   /\ num_le (PFloat 2.0) (PFloat 1.0) = false)
  /\ (get_km_coefficient DEFAULT_CONFIG (VNum (PInt 100)) = ok (PFloat 0.4)
      /\ (forall v, num_le (PInt 50) v = true -> num_lt v (PInt 100) = true ->
            get_km_coefficient DEFAULT_CONFIG (VNum v) = ok (PFloat 0.35))
      /\ num_le (PFloat 0.4) (PFloat 0.35) = false).
Proof.
  split; [vm_compute; repeat split|].
  split; [vm_compute; reflexivity|].
  split; [|vm_compute; reflexivity].
  intros v Hlo Hhi. unfold get_km_coefficient.
  rewrite (km_table_100 _ _ eq_refl eq_refl). cbn [cfg_item rbind ok].
  apply (band_lookup_split [fband 0 0.35] (PInt 50) (PFloat 0.35)).
  - vm_compute. reflexivity.
  - exact Hlo.
  - constructor; [apply x_lt_not_le; exact Hhi|].
    apply List.Forall_forall. intros b Hb.
    assert (Hb' : num_le (PInt 100) (fst b) = true).
    { revert b Hb. apply forallb_forall. vm_compute. reflexivity. }
    destruct (num_le (fst b) v) eqn:Hbv; [|reflexivity].
    pose proof (num_le_trans _ _ _ Hb' Hbv) as H100.
    apply x_lt_not_le in Hhi. unfold num_le in H100. congruence.
Qed.

(** ** The delivery surcharge and partly given dimensions *)

Section Surcharge.
Context `{U : Interpreter}.

Lemma is_vinh_true dp : is_vinh dp = ok true <-> names_vinh dp.
Proof.
  unfold is_vinh, names_vinh, pystr_eqb. split.
  - destruct (truthy dp) eqn:Ht; [|discriminate].
    destruct dp as [|n|s]; try discriminate.
    intros [= Hb]. apply bool_decide_eq_true in Hb.
    exists s. split; [reflexivity|]. split; [|exact Hb].
    intros ->. discriminate Ht.
  - intros (s & -> & Hne & Hs).
    destruct s as [|c s]; [congruence|]. simpl.
    f_equal. apply bool_decide_eq_true. exact Hs.
Qed.

(** The tail of a successful run: the size coefficient and the surcharge. *)
Lemma size_and_fee cfg rq :
  succeeded (calculate_shipping_rate cfg rq) ->
  exists m size vinh fee,
    py_max [py_or (vol_length_cm rq) (VNum (PInt 0));
            py_or (vol_width_cm rq) (VNum (PInt 0));
            py_or (vol_height_cm rq) (VNum (PInt 0))] = ok m
    /\ get_size_coefficient cfg m = ok size
    /\ coefficient (calculate_shipping_rate cfg rq) "size" = Some size
    /\ is_vinh (delivery_point rq) = ok vinh
    /\ (if vinh then
          do c <- cfg_item (constants cfg) "constants";
          do b <- dict_item c "delivery_vinh_base";
          do c' <- cfg_item (constants cfg) "constants";
          do r <- dict_item c' "delivery_vinh_rate";
          num_mul b r
        else ok (PInt 0)) = ok fee
    /\ rounded (calculate_shipping_rate cfg rq) "delivery_fee" fee.
Proof.
  intros Hs. apply succeeded_body in Hs.
  set (r := calculate_shipping_rate cfg rq) in *. clearbody r.
  unfold rate_body in Hs. repeat body_step Hs.
  match type of Hs with round_fields _ ?pre = _ => set (pre0 := pre) in * end.
  assert (Hco : r !! "coefficients" = pre0 !! "coefficients")
    by (apply (other_field_kept _ _ _ Hs); in_list).
  unfold pre0 in Hco. revert Hco. stored. intros Hco.
  match goal with
  | E : rbind (py_max _) _ = inr ?p |- _ =>
      unfold rbind in E; destruct (py_max _) as [?|m] eqn:Em; [discriminate E|];
      exists m, p
  end.
  do 2 eexists.
  split; [reflexivity|]. split; [eassumption|].
  split; [unfold coefficient; rewrite Hco; cbn [list_to_map foldr fst snd]; stored; reflexivity|].
  split; [reflexivity|]. split; [eassumption|].
  apply (money_field_rounded _ _ _ _ Hs); [in_list|unfold pre0; stored; reflexivity].
Qed.

(** C8: with the embedded configuration the delivery fee of a successful call
    is 980100, the rounding of 5445000 x 0.18, exactly when the delivery point
    names Vinh, and 0 otherwise, whatever the distance. *)
Theorem delivery_surcharge_rule rq r :
  r = calculate_shipping_rate DEFAULT_CONFIG rq -> succeeded r ->
  (do p <- num_mul (PInt 5445000) (PFloat 0.18); py_round p) = ok 980100
  /\ (field r "delivery_fee" = Some (PInt 980100) <-> names_vinh (delivery_point rq))
  /\ (~ names_vinh (delivery_point rq) -> field r "delivery_fee" = Some (PInt 0))
  /\ (forall rq' r',
        r' = calculate_shipping_rate DEFAULT_CONFIG rq' -> succeeded r' ->
        delivery_point rq' = delivery_point rq ->
        field r' "delivery_fee" = field r "delivery_fee").
Proof.
  intros -> Hs.
  assert (Hsame : forall rq' r',
             r' = calculate_shipping_rate DEFAULT_CONFIG rq' -> succeeded r' ->
             delivery_point rq' = delivery_point rq ->
             field r' "delivery_fee"
             = field (calculate_shipping_rate DEFAULT_CONFIG rq) "delivery_fee").
  { intros rq' r' -> Hs' Hdp.
    destruct (size_and_fee _ _ Hs) as (_ & _ & vinh & fee & _ & _ & _ & Hv & Hfee & Hr).
    destruct (size_and_fee _ _ Hs') as (_ & _ & vinh' & fee' & _ & _ & _ & Hv' & Hfee' & Hr').
    rewrite Hdp, Hv in Hv'. injection Hv' as <-.
    rewrite Hfee in Hfee'. injection Hfee' as <-.
    exact (rounded_same _ _ _ _ _ Hr' Hr). }
  destruct (size_and_fee _ _ Hs) as (m & size & vinh & fee & _ & _ & _ & Hv & Hfee & z & Hf & Hz & _).
  split; [vm_compute; reflexivity|].
  apply and_assoc. split; [|exact Hsame]. clear Hsame.
  destruct vinh.
  - apply is_vinh_true in Hv. vm_compute in Hfee. injection Hfee as <-.
    vm_compute in Hz. injection Hz as <-.
    split; [split; [intros _; exact Hv|intros _; exact Hf]|].
    intros Hn. contradiction.
  - assert (Hn : ~ names_vinh (delivery_point rq)).
    { intros Hy. apply is_vinh_true in Hy. rewrite Hy in Hv. discriminate Hv. }
    injection Hfee as <-. simpl in Hz. injection Hz as <-.
    split; [|intros _; exact Hf].
    rewrite Hf. split; [intros [= ]|intros Hy; contradiction].
Qed.


End Surcharge.

(** ** Failures *)








Section Failures.
Context `{U : Interpreter}.

(** The body never stores under "error". *)
Lemma body_keeps_error cfg rq s :
  rate_body cfg rq {["error" := RNone]} = (inr tt, s) -> s !! "error" = Some RNone.
Proof.
  intros Hs. unfold rate_body in Hs. repeat body_step Hs.
  rewrite (other_field_kept _ _ _ Hs) by in_list. stored. reflexivity.
Qed.

(** C5, amended: the call always returns a dictionary; a failure of the body
    is recorded under "error" in one of three forms: an input-value error for
    a [ValueError] or [TypeError], a configuration error for a [KeyError], a
    system error for any other exception. *)
Theorem failures_become_errors cfg rq :
  let r := calculate_shipping_rate cfg rq in
  (exists s, rate_body cfg rq {["error" := RNone]} = (inr tt, s)
             /\ r = s /\ r !! "error" = Some RNone)
  \/ (exists e s, rate_body cfg rq {["error" := RNone]} = (inl e, s)
        /\ r !! "error" = Some (RStr (error_message e))
        /\ (((exn_cls e = ValueError \/ exn_cls e = TypeError)
             /\ error_message e = "Lỗi giá trị đầu vào: " +:+ exn_msg e)
            \/ (exn_cls e = KeyError
                /\ error_message e
                   = "Lỗi cấu hình: Thiếu khóa " +:+ exn_msg e +:+ " trong cấu hình nhúng")
            \/ (exn_cls e <> ValueError /\ exn_cls e <> TypeError /\ exn_cls e <> KeyError
                /\ error_message e = "Lỗi hệ thống: " +:+ exn_msg e))).
Proof.
  intros r. unfold r, calculate_shipping_rate.
  destruct (rate_body cfg rq {["error" := RNone]}) as [[e|[]] s] eqn:Hb.
  - right. exists e, s. split; [reflexivity|]. split; [apply lookup_insert_eq|].
    unfold error_message. destruct (exn_cls e); auto 10; right; right; repeat split; discriminate.
  - left. exists s. split; [reflexivity|]. split; [reflexivity|].
    apply (body_keeps_error _ _ _ Hb).
Qed.


End Failures.

(** C5, as stated, fails: a total weight that overflows to infinity raises
    [OverflowError] when the amounts are rounded, and an empty distance table
    raises [IndexError]; both come back as a system error, which is neither
    the input-value error nor the configuration error. *)
Lemma overflow_is_a_system_error :
  (let r := @calculate_shipping_rate Vi.tables DEFAULT_CONFIG overflow_request in
   fst (@rate_body Vi.tables DEFAULT_CONFIG overflow_request {["error" := RNone]})
   = raise OverflowError "cannot convert float infinity to integer"
   /\ r !! "error" = Some (RStr "Lỗi hệ thống: cannot convert float infinity to integer"))
  /\ (let rq := default_request (VNum (PInt 100)) (VNum (PInt 500)) in
      let r := @calculate_shipping_rate Vi.tables empty_km_config rq in
      fst (@rate_body Vi.tables empty_km_config rq {["error" := RNone]})
      = raise IndexError "list index out of range"
      /\ r !! "error" = Some (RStr "Lỗi hệ thống: list index out of range"))
  /\ String.prefix "Lỗi giá trị đầu vào" "Lỗi hệ thống: cannot convert float infinity to integer" = false
  /\ String.prefix "Lỗi cấu hình" "Lỗi hệ thống: cannot convert float infinity to integer" = false.
Proof. vm_compute. repeat split. Qed.


(** ** The HTTP handler *)


Section Handler.
Context `{U : Interpreter}.


End Handler.


(** ** The matcher *)

Section Matcher.
Context `{U : Interpreter}.

Lemma star_match_inv {A} p greedy (k : pystr -> option A) s : forall res,
  star_match p greedy k s = Some res ->
  exists s1 s2, s = s1 ++ s2 /\ Forall (fun x => p x = true) s1 /\ k s2 = Some res.
Proof.
  induction s as [|c s IH]; intros res; simpl.
  - intros H. exists [], []. auto.
  - destruct (p c) eqn:Hp; [|intros H; exists [], (c :: s); auto].
    assert (Hrec : star_match p greedy k s = Some res ->
                   exists s1 s2, c :: s = s1 ++ s2
                                 /\ Forall (fun x => p x = true) s1 /\ k s2 = Some res).
    { intros H. destruct (IH _ H) as (s1 & s2 & -> & Hall & Hk).
      exists (c :: s1), s2. auto. }
    destruct greedy.
    + destruct (star_match p true k s) as [r|] eqn:Hs.
      * intros [= <-]. apply Hrec. reflexivity.
      * intros H. exists [], (c :: s). auto.
    + destruct (k (c :: s)) as [r|] eqn:Hk.
      * intros [= <-]. exists [], (c :: s). auto.
      * exact Hrec.
Qed.

Lemma take_length_app (s1 s2 : pystr) :
  take (length (s1 ++ s2) - length s2) (s1 ++ s2) = s1.
Proof.
  rewrite length_app. replace (length s1 + length s2 - length s2)%nat with (length s1) by lia.
  apply take_app_length.
Qed.

(** What the matcher accepts is a match: a prefix of the text with the groups
    it sets, and the continuation accepted the rest. *)
Lemma rmatch_inv ic r : forall s caps k res,
  rmatch ic r s caps k = Some res ->
  exists s1 s2 new,
    s = s1 ++ s2 /\ matches ic r s1 new /\ k s2 (new ++ caps) = Some res.
Proof.
  induction r as [c|items|r1 IH1 r2 IH2|r1 IH1 r2 IH2|r1 IH1|greedy items|n r1 IH1| |];
    intros s caps k res; cbn [rmatch].
  - destruct s as [|x s]; [discriminate|].
    destruct (item_matches ic x (CChar c)) eqn:Hx; [|discriminate].
    intros H. exists [x], s, []. split; [reflexivity|]. split; [constructor; exact Hx|exact H].
  - destruct s as [|x s]; [discriminate|].
    destruct (set_matches ic items x) eqn:Hx; [|discriminate].
    intros H. exists [x], s, []. split; [reflexivity|]. split; [constructor; exact Hx|exact H].
  - intros H. destruct (IH1 _ _ _ _ H) as (s1 & s2 & n1 & -> & Hm1 & H2).
    destruct (IH2 _ _ _ _ H2) as (s3 & s4 & n2 & -> & Hm2 & Hk).
    exists (s1 ++ s3), s4, (n2 ++ n1). split; [apply app_assoc|].
    split; [constructor; assumption|]. rewrite <- app_assoc. exact Hk.
  - destruct (rmatch ic r1 s caps k) as [c|] eqn:H1.
    + intros [= <-]. destruct (IH1 _ _ _ _ H1) as (s1 & s2 & n1 & -> & Hm & Hk).
      exists s1, s2, n1. auto using M_alt_l.
    + intros H2. destruct (IH2 _ _ _ _ H2) as (s1 & s2 & n1 & -> & Hm & Hk).
      exists s1, s2, n1. auto using M_alt_r.
  - destruct (rmatch ic r1 s caps k) as [c|] eqn:H1.
    + intros [= <-]. destruct (IH1 _ _ _ _ H1) as (s1 & s2 & n1 & -> & Hm & Hk).
      exists s1, s2, n1. auto using M_opt_some.
    + intros H. exists [], s, []. auto using M_opt_none.
  - intros H. destruct (star_match_inv _ _ _ _ _ H) as (s1 & s2 & -> & Hall & Hk).
    exists s1, s2, []. auto using M_star.
  - intros H. destruct (IH1 _ _ _ _ H) as (s1 & s2 & n1 & -> & Hm & Hk).
    rewrite take_length_app in Hk.
    exists s1, s2, ((n, s1) :: n1). auto using M_group.
  - destruct s as [|c [|c' s]]; try discriminate.
    + intros H. exists [], [], []. auto using M_end.
    + destruct (c =? 10)%N; [|discriminate].
      intros H. exists [], [c], []. auto using M_end.
  - intros H. exists [], s, []. auto using M_empty.
Qed.

(** A successful search returns the groups of a match of the pattern. *)
Lemma search_inv ic r s caps :
  search ic r s = Some caps -> exists s1, matches ic r s1 caps.
Proof.
  induction s as [|c s IH]; cbn [search].
  - destruct (rmatch ic r [] [] _) as [c|] eqn:H; [|discriminate].
    intros [= <-]. destruct (rmatch_inv _ _ _ _ _ _ H) as (s1 & s2 & new & _ & Hm & [= <-]).
    rewrite app_nil_r. eauto.
  - destruct (rmatch ic r (c :: s) [] _) as [c'|] eqn:H.
    + intros [= <-]. destruct (rmatch_inv _ _ _ _ _ _ H) as (s1 & s2 & new & _ & Hm & [= <-]).
      rewrite app_nil_r. eauto.
    + exact IH.
Qed.

End Matcher.

(** ** The groups of the extractor's patterns *)

Section Groups.
Context `{U : Interpreter} {L : TableLaws}.

Lemma matches_seq_inv ic r1 r2 s n :
  matches ic (RSeq r1 r2) s n ->
  exists s1 s2 n1 n2, s = s1 ++ s2 /\ n = n2 ++ n1
                      /\ matches ic r1 s1 n1 /\ matches ic r2 s2 n2.
Proof. inversion 1; subst. eauto 10. Qed.

Lemma matches_group_inv ic k r s n :
  matches ic (RGroup k r) s n -> exists new, n = (k, s) :: new /\ matches ic r s new.
Proof. inversion 1; subst. eauto. Qed.

Lemma matches_opt_inv ic r s n :
  matches ic (ROpt r) s n -> matches ic r s n \/ (s = [] /\ n = []).
Proof. inversion 1; subst; auto. Qed.

Lemma matches_set_inv ic items s n :
  matches ic (RSet items) s n -> exists x, s = [x] /\ n = [] /\ set_matches ic items x = true.
Proof. inversion 1; subst. eauto. Qed.

Lemma matches_star_inv ic g items s n :
  matches ic (RStar g items) s n ->
  n = [] /\ Forall (fun x => set_matches ic items x = true) s.
Proof. inversion 1; subst. auto. Qed.

Lemma matches_groupless ic r : forall s n,
  groupless r = true -> matches ic r s n -> n = [].
Proof.
  induction r as [c|items|r1 IH1 r2 IH2|r1 IH1 r2 IH2|r1 IH1|g items|k r1 IH1| |];
    intros s n Hg Hm; simpl in Hg; try discriminate;
    try (apply andb_true_iff in Hg as [Hg1 Hg2]); inversion Hm; subst; eauto.
  erewrite (IH1 _ n1), (IH2 _ n2); eauto.
Qed.

Ltac invert_matches :=
  repeat match goal with
  | H : matches _ (RSeq _ _) _ _ |- _ =>
      apply matches_seq_inv in H; destruct H as (? & ? & ? & ? & -> & -> & ? & ?)
  | H : matches _ (RGroup _ _) _ _ |- _ =>
      apply matches_group_inv in H; destruct H as (? & -> & ?)
  | H : matches _ (ROpt (RGroup _ _)) _ _ |- _ =>
      apply matches_opt_inv in H; destruct H as [H|[-> ->]]
  | H : matches _ REmpty _ ?n |- _ =>
      apply (matches_groupless _ REmpty _ _ eq_refl) in H; subst n
  end.

Ltac drop_groupless :=
  repeat match goal with
  | H : matches _ ?r _ ?n |- _ =>
      is_var n;
      let G := fresh "G" in
      assert (G : groupless r = true) by (vm_compute; reflexivity);
      pose proof (matches_groupless _ _ _ _ G H); clear G; subst n
  end.

Lemma plus_digits ic s n :
  matches ic (plus true [CDigit]) s n ->
  n = [] /\ s <> [] /\ Forall (fun c => isdec c = true) s.
Proof.
  unfold plus. intros H.
  apply matches_seq_inv in H as (s1 & s2 & n1 & n2 & -> & -> & H1 & H2).
  apply matches_set_inv in H1 as (x & -> & -> & Hx).
  apply matches_star_inv in H2 as [-> Hall].
  split; [reflexivity|]. split; [discriminate|].
  constructor.
  - unfold set_matches in Hx. simpl in Hx. rewrite orb_false_r in Hx. exact Hx.
  - eapply Forall_impl; [exact Hall|]. intros c Hc.
    unfold set_matches in Hc. simpl in Hc. rewrite orb_false_r in Hc. exact Hc.
Qed.

Lemma number_numeral ic s n :
  matches ic number s n -> numeral s.
Proof.
  unfold number. intros H.
  apply matches_seq_inv in H as (s1 & s2 & n1 & n2 & -> & -> & H1 & H2).
  apply plus_digits in H1 as (_ & Hne1 & Hd1).
  exists s1, s2. split; [reflexivity|]. split; [exact Hne1|]. split; [exact Hd1|].
  apply matches_opt_inv in H2 as [H2|[-> _]]; [|left; reflexivity].
  right.
  apply matches_seq_inv in H2 as (s3 & s4 & n3 & n4 & -> & -> & H3 & H4).
  apply matches_set_inv in H3 as (x & -> & -> & Hx).
  apply plus_digits in H4 as (_ & Hne2 & Hd2).
  exists x, s4. split; [reflexivity|]. split; [|auto].
  unfold set_matches in Hx. cbn [existsb item_matches] in Hx. rewrite orb_false_r in Hx.
  apply orb_true_iff in Hx as [Hx|Hx]; destruct ic.
  - left. apply ieq_dot. exact Hx.
  - left. apply N.eqb_eq in Hx. symmetry. exact Hx.
  - right. apply ieq_comma. exact Hx.
  - right. apply N.eqb_eq in Hx. symmetry. exact Hx.
Qed.

(** The groups a match of each pattern has set. *)
Lemma text_group ic r s caps :
  r = from_pattern \/ r = to_pattern \/ r = delivery_pattern
  \/ r = goods_pattern \/ r = vehicle_pattern ->
  search ic r s = Some caps -> exists g, group 1 caps = Some g.
Proof.
  intros Hr Hs. apply search_inv in Hs as (s1 & Hm).
  destruct Hr as [-> | [-> | [-> | [-> | ->]]]];
    cbv [from_pattern to_pattern delivery_pattern goods_pattern vehicle_pattern] in Hm;
    cbn [seq foldr] in Hm; invert_matches; drop_groupless; simpl; eauto.
Qed.

Lemma weight_groups ic r s caps :
  r = weight_pattern \/ r = distance_pattern ->
  search ic r s = Some caps ->
  exists g1 g2, group 1 caps = Some g1 /\ group 2 caps = Some g2 /\ numeral g1.
Proof.
  intros Hr Hs. apply search_inv in Hs as (s1 & Hm).
  destruct Hr as [-> | ->]; cbv [weight_pattern distance_pattern] in Hm;
    cbn [seq foldr] in Hm; invert_matches;
    match goal with H : matches _ number _ _ |- _ => pose proof (number_numeral _ _ _ H) end;
    drop_groupless; simpl; eauto.
Qed.

Lemma quantity_group ic s caps :
  search ic quantity_pattern s = Some caps ->
  exists g, group 1 caps = Some g /\ g <> [] /\ Forall (fun c => isdec c = true) g.
Proof.
  intros Hs. apply search_inv in Hs as (s1 & Hm).
  cbv [quantity_pattern] in Hm. cbn [seq foldr] in Hm. invert_matches.
  match goal with H : matches _ (plus true [CDigit]) _ _ |- _ =>
    apply plus_digits in H as (-> & ? & ?) end.
  drop_groupless. simpl. eauto.
Qed.

Lemma coef_group ic s caps :
  search ic coef_pattern s = Some caps ->
  exists g, group 1 caps = Some g /\ numeral g.
Proof.
  intros Hs. apply search_inv in Hs as (s1 & Hm).
  cbv [coef_pattern] in Hm. cbn [seq foldr] in Hm. invert_matches.
  match goal with H : matches _ number _ _ |- _ => pose proof (number_numeral _ _ _ H) end.
  drop_groupless. simpl. eauto.
Qed.

Lemma dim_groups ic s caps :
  search ic dim_pattern s = Some caps ->
  exists g1 g2 g3,
    group 1 caps = Some g1 /\ group 2 caps = Some g2 /\ group 3 caps = Some g3
    /\ numeral g1 /\ numeral g2 /\ numeral g3.
Proof.
  intros Hs. apply search_inv in Hs as (s1 & Hm).
  cbv [dim_pattern] in Hm. cbn [seq foldr] in Hm. invert_matches;
    repeat match goal with H : matches _ number _ _ |- _ =>
      pose proof (number_numeral _ _ _ H);
      apply (matches_groupless _ number _ _ eq_refl) in H; subst end;
    drop_groupless; simpl; eauto 10.
Qed.

End Groups.

(** ** [float] and [int] on the numerals of the patterns *)

Lemma is_digit_range c : is_digit c = true <-> (48 <= c <= 57)%N.
Proof. unfold is_digit. rewrite andb_true_iff, !N.leb_le. reflexivity. Qed.

Lemma digit_not_space c : is_digit c = true -> ascii_space c = false.
Proof.
  intros H. apply is_digit_range in H. unfold ascii_space.
  apply orb_false_iff. split.
  - apply N.eqb_neq. lia.
  - apply andb_false_iff. right. apply N.leb_gt. lia.
Qed.

Lemma drop_while_head {A} (p : A -> bool) x l : p x = false -> drop_while p (x :: l) = x :: l.
Proof. simpl. intros ->. reflexivity. Qed.

Lemma strip_with_none p (a : pystr) :
  Forall (fun c => p c = false) a -> strip_with p a = a.
Proof.
  intros Hall. unfold strip_with.
  assert (Hd : forall l : pystr, Forall (fun c => p c = false) l -> drop_while p l = l).
  { intros [|x l] Hl; [reflexivity|]. inversion_clear Hl. apply drop_while_head. assumption. }
  rewrite (Hd a Hall). rewrite Hd.
  - apply rev_involutive.
  - apply List.Forall_rev. exact Hall.
Qed.

Lemma strip_underscores_none (a : pystr) : forall prev,
  prev <> 95%N -> Forall (fun c => c <> 95%N) a -> strip_underscores prev a = Some a.
Proof.
  induction a as [|c a IH]; intros prev Hp Hall; simpl.
  - apply N.eqb_neq in Hp. rewrite Hp. reflexivity.
  - inversion_clear Hall as [|? ? Hc Hall'].
    pose proof Hc as Hc'. apply N.eqb_neq in Hc'. rewrite Hc'.
    apply N.eqb_neq in Hp. rewrite Hp. simpl.
    rewrite (IH c Hc Hall'). reflexivity.
Qed.

Lemma span_digits_app d1 rest :
  Forall (fun c => is_digit c = true) d1 ->
  (rest = [] \/ exists c r, rest = c :: r /\ is_digit c = false) ->
  span_digits (d1 ++ rest) = (d1, rest).
Proof.
  intros Hd Hr. induction Hd as [|c d1 Hc Hd IH]; simpl.
  - destruct Hr as [-> | (c & r & -> & Hc)]; [reflexivity|]. simpl. rewrite Hc. reflexivity.
  - rewrite Hc, IH. reflexivity.
Qed.

Lemma take_sign_digit c a : is_digit c = true -> take_sign (c :: a) = (false, c :: a).
Proof.
  intros H. apply is_digit_range in H. unfold take_sign.
  destruct (c =? 43)%N eqn:E1; [apply N.eqb_eq in E1; lia|].
  destruct (c =? 45)%N eqn:E2; [apply N.eqb_eq in E2; lia|]. reflexivity.
Qed.

Lemma ascii_lower_digit c : is_digit c = true -> ascii_lower c = c.
Proof.
  intros H. apply is_digit_range in H. unfold ascii_lower.
  destruct (65 <=? c)%N eqn:E; [apply N.leb_le in E; lia|]. reflexivity.
Qed.

Lemma not_a_word c a (w : pystr) :
  is_digit c = true -> Forall (fun x => is_digit x = false) w ->
  pystr_eqb (map ascii_lower (c :: a)) w = false.
Proof.
  intros Hc Hw. unfold pystr_eqb. apply bool_decide_eq_false.
  simpl. rewrite (ascii_lower_digit _ Hc). intros <-.
  inversion_clear Hw. congruence.
Qed.

Lemma parse_float_numeral a : ascii_numeral a -> exists f, parse_float_ascii a = Some f.
Proof.
  intros (d1 & rest & -> & Hne & Hd1 & Hrest).
  destruct d1 as [|c d1]; [congruence|].
  pose proof Hd1 as Hd1'. inversion_clear Hd1' as [|? ? Hc _].
  unfold parse_float_ascii. change ((c :: d1) ++ rest) with (c :: (d1 ++ rest)).
  rewrite (take_sign_digit _ _ Hc).
  rewrite !(not_a_word c (d1 ++ rest)) by (assumption || (vm_compute; repeat constructor)).
  cbn [orb].
  change (c :: (d1 ++ rest)) with ((c :: d1) ++ rest).
  rewrite (span_digits_app (c :: d1) rest Hd1).
  2:{ destruct Hrest as [-> | (d2 & -> & _)]; [left; reflexivity|].
      right. exists 46%N, d2. split; reflexivity. }
  destruct Hrest as [-> | (d2 & -> & Hne2 & Hd2)].
  - cbn [is_nil andb parse_exponent]. eauto.
  - rewrite N.eqb_refl.
    replace d2 with (d2 ++ []) by apply app_nil_r.
    rewrite (span_digits_app d2 [] Hd2) by (left; reflexivity).
    cbn [is_nil andb parse_exponent]. eauto.
Qed.

Lemma ascii_numeral_chars a :
  ascii_numeral a ->
  Forall (fun c => ascii_space c = false) a /\ Forall (fun c => c <> 95%N) a.
Proof.
  intros (d1 & rest & -> & _ & Hd1 & Hrest).
  assert (Hd : forall d, Forall (fun c => is_digit c = true) d ->
                         Forall (fun c => ascii_space c = false) d
                         /\ Forall (fun c => c <> 95%N) d).
  { intros d Hall. split; (eapply Forall_impl; [exact Hall|]); intros c Hc.
    - apply digit_not_space. exact Hc.
    - apply is_digit_range in Hc. lia. }
  destruct (Hd _ Hd1) as [H1 H2].
  destruct Hrest as [-> | (d2 & -> & _ & Hd2)].
  - rewrite app_nil_r. auto.
  - destruct (Hd _ Hd2) as [H3 H4].
    split; apply Forall_app; (split; [assumption|]); constructor; (assumption || reflexivity || discriminate).
Qed.

Section Parsers.
Context `{U : Interpreter} {L : TableLaws}.

Lemma to_ascii_cons c s :
  to_ascii (c :: s)
  = match ascii_char c with
    | None => None
    | Some c' => option_map (cons c') (to_ascii s)
    end.
Proof. reflexivity. Qed.

Lemma ascii_char_digit c :
  isdec c = true -> exists c', ascii_char c = Some c' /\ is_digit c' = true.
Proof.
  unfold isdec, ascii_char. destruct (uc_decimal c) as [d|] eqn:Ed; [intros _|discriminate].
  destruct (c <? 128)%N eqn:Hlt.
  - apply N.ltb_lt in Hlt. pose proof (decimal_ascii c Hlt) as Ha. rewrite Ed in Ha.
    destruct (is_digit c) eqn:Hc; [eauto|discriminate].
  - rewrite (decimal_not_space _ _ Ed). simpl.
    exists (48 + d)%N. split; [reflexivity|].
    apply is_digit_range. pose proof (decimal_below_ten _ _ Ed). lia.
Qed.

Lemma to_ascii_digits ds :
  Forall (fun c => isdec c = true) ds ->
  exists a, to_ascii ds = Some a /\ Forall (fun c => is_digit c = true) a
            /\ length a = length ds.
Proof.
  induction 1 as [|c ds Hc Hds (a & Ha & Hda & Hlen)].
  - exists []. split; [reflexivity|]. split; [constructor|reflexivity].
  - destruct (ascii_char_digit _ Hc) as (c' & Hc' & Hd').
    exists (c' :: a). rewrite to_ascii_cons, Hc', Ha.
    split; [reflexivity|]. split; [constructor; assumption|simpl; congruence].
Qed.

Lemma nonempty_length {A} (l l' : list A) : length l' = length l -> l <> [] -> l' <> [].
Proof. destruct l, l'; simpl; congruence. Qed.

Lemma to_ascii_app s1 : forall s2 a1 a2,
  to_ascii s1 = Some a1 -> to_ascii s2 = Some a2 -> to_ascii (s1 ++ s2) = Some (a1 ++ a2).
Proof.
  induction s1 as [|c s1 IH]; intros s2 a1 a2.
  - intros [= <-] H2. exact H2.
  - rewrite to_ascii_cons. change ((c :: s1) ++ s2) with (c :: (s1 ++ s2)).
    rewrite to_ascii_cons. destruct (ascii_char c) as [c'|]; [|discriminate].
    destruct (to_ascii s1) as [a1'|] eqn:E1; [|discriminate].
    intros [= <-] H2. rewrite (IH _ _ _ eq_refl H2). reflexivity.
Qed.

Lemma comma_to_dot_digits ds :
  Forall (fun c => isdec c = true) ds -> comma_to_dot ds = ds.
Proof.
  induction 1 as [|c ds Hc Hds IH]; [reflexivity|].
  unfold comma_to_dot in *. simpl. rewrite IH.
  destruct (c =? chr ",")%N eqn:E; [|reflexivity].
  apply N.eqb_eq in E. subst c. unfold isdec in Hc.
  rewrite (decimal_ascii (chr ",")) in Hc by (vm_compute; reflexivity).
  discriminate Hc.
Qed.

Lemma numeral_to_ascii g :
  numeral g -> exists a, to_ascii (comma_to_dot g) = Some a /\ ascii_numeral a.
Proof.
  intros (d1 & rest & -> & Hne & Hd1 & Hrest).
  destruct (to_ascii_digits _ Hd1) as (a1 & Ha1 & Hda1 & Hlen1).
  pose proof (nonempty_length _ _ Hlen1 Hne) as Hne1.
  unfold comma_to_dot. rewrite map_app. fold (comma_to_dot d1).
  rewrite (comma_to_dot_digits _ Hd1).
  destruct Hrest as [-> | (sep & d2 & -> & Hsep & Hne2 & Hd2)].
  - exists a1. simpl. rewrite app_nil_r. split; [exact Ha1|].
    exists a1, []. rewrite app_nil_r. auto.
  - destruct (to_ascii_digits _ Hd2) as (a2 & Ha2 & Hda2 & Hlen2).
    pose proof (nonempty_length _ _ Hlen2 Hne2) as Hne2'.
    exists (a1 ++ 46%N :: a2). split.
    + apply to_ascii_app; [exact Ha1|].
      cbn [map]. fold (comma_to_dot d2). rewrite (comma_to_dot_digits _ Hd2).
      assert (Hs : (if (sep =? chr ",")%N then chr "." else sep) = 46%N)
        by (destruct Hsep as [-> | ->]; reflexivity).
      rewrite Hs. rewrite to_ascii_cons.
      change (ascii_char 46%N) with (Some 46%N). rewrite Ha2. reflexivity.
    + exists a1, (46%N :: a2). split; [reflexivity|]. split; [auto|]. split; [exact Hda1|].
      right. exists a2. auto.
Qed.

(** [float] accepts what the number pattern matched. *)
Lemma float_of_numeral g :
  numeral g -> exists f, float_of_str (comma_to_dot g) = ok f.
Proof.
  intros Hg. destruct (numeral_to_ascii _ Hg) as (a & Ha & Hn).
  destruct (ascii_numeral_chars _ Hn) as [Hsp Hus].
  destruct (parse_float_numeral _ Hn) as (f & Hf).
  exists f. unfold float_of_str. rewrite Ha.
  rewrite (strip_with_none _ _ Hsp).
  rewrite (strip_underscores_none _ 0%N) by (discriminate || exact Hus).
  rewrite Hf. reflexivity.
Qed.

Lemma digit_run_digits a :
  Forall (fun c => is_digit c = true) a -> digit_run a = length a.
Proof. induction 1 as [|c a Hc _ IH]; simpl; [reflexivity|]. rewrite Hc, IH. reflexivity. Qed.

(** [int] accepts what [\d+] matched when its digits are within the limit,
    and refuses it with a [ValueError] when they are not. *)
Lemma int_of_digits g :
  g <> [] -> Forall (fun c => isdec c = true) g ->
  (within_digit_limit g = true -> exists z, int_of_str g = ok z)
  /\ (within_digit_limit g = false ->
      exists e, int_of_str g = inl e /\ exn_cls e = ValueError).
Proof.
  intros Hne Hd. destruct (to_ascii_digits _ Hd) as (a & Ha & Hda & Hlen).
  pose proof (nonempty_length _ _ Hlen Hne) as Hne'.
  unfold int_of_str, within_digit_limit. rewrite Ha.
  assert (Hn : ascii_numeral a) by (exists a, []; rewrite app_nil_r; auto).
  destruct (ascii_numeral_chars _ Hn) as [Hsp Hus].
  rewrite (strip_with_none _ _ Hsp).
  destruct a as [|c a]; [congruence|].
  pose proof Hda as Hda'. inversion_clear Hda' as [|? ? Hc _].
  rewrite (take_sign_digit _ _ Hc).
  rewrite (digit_run_digits _ Hda), Hlen.
  destruct (Nat.eqb max_str_digits 0) eqn:Hz; cbn [negb andb orb].
  - split; [intros _|discriminate].
    rewrite (strip_underscores_none _ 0%N) by (discriminate || exact Hus).
    replace (c :: a) with ((c :: a) ++ []) by apply app_nil_r.
    rewrite (span_digits_app _ [] Hda) by (left; reflexivity).
    cbn [is_nil orb negb]. eauto.
  - destruct (length g <=? max_str_digits)%nat eqn:Hle.
    + apply Nat.leb_le in Hle.
      assert (Hlt : (max_str_digits <? length g)%nat = false) by (apply Nat.ltb_ge; exact Hle).
      rewrite Hlt. split; [intros _|discriminate].
      rewrite (strip_underscores_none _ 0%N) by (discriminate || exact Hus).
      replace (c :: a) with ((c :: a) ++ []) by apply app_nil_r.
      rewrite (span_digits_app _ [] Hda) by (left; reflexivity).
      cbn [is_nil orb negb]. eauto.
    + apply Nat.leb_gt in Hle.
      assert (Hlt : (max_str_digits <? length g)%nat = true) by (apply Nat.ltb_lt; exact Hle).
      rewrite Hlt. split; [discriminate|intros _].
      eexists. split; reflexivity.
Qed.

End Parsers.

(** ** The confidence of the extractor *)

Lemma sum_nonneg weights :
  Forall (fun w => 0 <= w) weights -> 0 <= fold_right Z.add 0 weights.
Proof. induction 1; simpl; lia. Qed.

Lemma score_bounds flags : forall weights,
  Forall (fun w => 0 <= w) weights ->
  0 <= score flags weights <= fold_right Z.add 0 weights.
Proof.
  induction flags as [|b flags IH]; intros [|w weights] Hw; simpl; try lia.
  - pose proof (sum_nonneg _ Hw) as H. simpl in H. lia.
  - inversion_clear Hw as [|? ? H0 Hw'].
    specialize (IH _ Hw'). destruct b; lia.
Qed.

(** Whatever fields matched, rounding the accumulated sum to two places gives
    the [float] nearest to the exact sum of their increments, which lies
    between 0 and 1.45. *)
Lemma confidence_table b1 b2 b3 b4 b5 b6 b7 b8 b9 b10 :
  let flags := [b1; b2; b3; b4; b5; b6; b7; b8; b9; b10] in
  let c := py_round2 (accumulate flags float_increments 0) in
  c = float_of_ratio (score flags increments) 100
  /\ num_le (PInt 0) (PFloat c) = true
  /\ num_le (PFloat c) (PFloat 1.45) = true.
Proof.
  destruct b1, b2, b3, b4, b5, b6, b7, b8, b9, b10; vm_compute; repeat split.
Qed.

Section Extractor.
Context `{U : Interpreter} {L : TableLaws}.

Lemma text_step r s :
  r = from_pattern \/ r = to_pattern \/ r = delivery_pattern
  \/ r = goods_pattern \/ r = vehicle_pattern ->
  exists v, group_text (search true r s) = ok v.
Proof.
  intros Hr. destruct (search true r s) as [caps|] eqn:Hs; [|simpl; eauto].
  destruct (text_group _ _ _ _ Hr Hs) as (g & Hg).
  simpl. unfold match_group. rewrite Hg. simpl. eauto.
Qed.

Lemma group_float_numeral n caps g :
  group n caps = Some g -> numeral g -> exists f, group_float n caps = ok f.
Proof.
  intros Hg Hn. destruct (float_of_numeral _ Hn) as (f & Hf).
  exists f. unfold group_float, match_group. rewrite Hg. simpl. exact Hf.
Qed.

Lemma weight_step s :
  exists v,
    match search false weight_pattern s with
    | Some caps =>
        do weight_value <- group_float 1 caps;
        do unit <- match_group 2 caps;
        ok (Some (if pystr_eqb unit (utf8 "tấn") then (weight_value * 1000)%float
                  else weight_value))
    | None => ok None
    end = ok v.
Proof.
  destruct (search false weight_pattern s) as [caps|] eqn:Hs; [|eauto].
  destruct (weight_groups _ _ _ _ (or_introl eq_refl) Hs) as (g1 & g2 & H1 & H2 & Hn).
  destruct (group_float_numeral _ _ _ H1 Hn) as (f & ->).
  unfold match_group. rewrite H2. simpl. eauto.
Qed.

Lemma distance_step s :
  exists v,
    match search false distance_pattern s with
    | Some caps => do d <- group_float 1 caps; ok (Some d)
    | None => ok None
    end = ok v.
Proof.
  destruct (search false distance_pattern s) as [caps|] eqn:Hs; [|eauto].
  destruct (weight_groups _ _ _ _ (or_intror eq_refl) Hs) as (g1 & g2 & H1 & H2 & Hn).
  destruct (group_float_numeral _ _ _ H1 Hn) as (f & ->). simpl. eauto.
Qed.

Lemma quantity_step s :
  (quantity_within_limit s = true ->
   exists v,
     match search true quantity_pattern s with
     | Some caps => do g <- match_group 1 caps; int_of_str g
     | None => ok 1
     end = ok v)
  /\ (quantity_within_limit s = false ->
      exists e,
        match search true quantity_pattern s with
        | Some caps => do g <- match_group 1 caps; int_of_str g
        | None => ok 1
        end = inl e /\ exn_cls e = ValueError).
Proof.
  unfold quantity_within_limit.
  destruct (search true quantity_pattern s) as [caps|] eqn:Hs; [|split; [eauto|discriminate]].
  destruct (quantity_group _ _ _ Hs) as (g & Hg & Hne & Hd).
  unfold match_group. rewrite Hg. cbn [rbind ok].
  exact (int_of_digits _ Hne Hd).
Qed.

Lemma dim_step s :
  exists v,
    match search true dim_pattern s with
    | Some caps =>
        do l <- group_float 1 caps;
        do w <- group_float 2 caps;
        do h <- group_float 3 caps;
        ok (Some (l, w, h))
    | None => ok None
    end = ok v.
Proof.
  destruct (search true dim_pattern s) as [caps|] eqn:Hs; [|eauto].
  destruct (dim_groups _ _ _ Hs) as (g1 & g2 & g3 & H1 & H2 & H3 & N1 & N2 & N3).
  destruct (group_float_numeral _ _ _ H1 N1) as (f1 & ->).
  destruct (group_float_numeral _ _ _ H2 N2) as (f2 & ->).
  destruct (group_float_numeral _ _ _ H3 N3) as (f3 & ->).
  simpl. eauto.
Qed.

Lemma coef_step s :
  exists v,
    match search true coef_pattern s with
    | Some caps => group_float 1 caps
    | None => ok 1%float
    end = ok v.
Proof.
  destruct (search true coef_pattern s) as [caps|] eqn:Hs; [|eauto].
  destruct (coef_group _ _ _ Hs) as (g & Hg & Hn).
  exact (group_float_numeral _ _ _ Hg Hn).
Qed.

Lemma bump_found {A} (m : option A) w c :
  bump m w c = if (match m with Some _ => true | None => false end) then (c + w)%float else c.
Proof. destruct m; reflexivity. Qed.

(** The extractor returns on every text whose package count is within the
    digit limit, with the confidence the matched fields give. *)
Lemma parse_user_query_returns query :
  quantity_within_limit query = true ->
  exists r,
    parse_user_query query = ok r
    /\ p_confidence r = py_round2 (accumulate (matched_fields query) float_increments 0).
Proof.
  intros Hq. unfold parse_user_query. cbv zeta.
  destruct (text_step from_pattern query) as (v1 & ->); [auto|].
  destruct (text_step to_pattern query) as (v2 & ->); [auto|].
  destruct (text_step delivery_pattern query) as (v3 & ->); [auto 6|].
  destruct (weight_step (uc_lower query)) as (v4 & ->).
  destruct (proj1 (quantity_step query) Hq) as (v5 & ->).
  destruct (dim_step query) as (v6 & ->).
  destruct (distance_step (uc_lower query)) as (v7 & ->).
  destruct (text_step goods_pattern query) as (v8 & ->); [auto 6|].
  destruct (text_step vehicle_pattern query) as (v9 & ->); [auto 6|].
  destruct (coef_step query) as (v10 & ->).
  cbn [rbind ok]. eexists. split; [reflexivity|].
  cbn [p_confidence]. rewrite !bump_found. reflexivity.
Qed.

(** A package count beyond the digit limit makes [int] raise. *)
Lemma parse_user_query_refuses query :
  quantity_within_limit query = false ->
  exists e, parse_user_query query = inl e /\ exn_cls e = ValueError.
Proof.
  intros Hq. unfold parse_user_query. cbv zeta.
  destruct (text_step from_pattern query) as (v1 & ->); [auto|].
  destruct (text_step to_pattern query) as (v2 & ->); [auto|].
  destruct (text_step delivery_pattern query) as (v3 & ->); [auto 6|].
  destruct (weight_step (uc_lower query)) as (v4 & ->).
  destruct (proj2 (quantity_step query) Hq) as (e & -> & He).
  cbn [rbind ok]. eauto.
Qed.

(** C4, amended: the extractor returns on every text, but for a package count
    with more digits than [int] accepts, which raises [ValueError]; the
    confidence it returns is the rounding to two places of the accumulated
    increments of the matched fields, which is the [float] nearest to their
    exact sum, and lies between 0 and 1.45. *)
Theorem confidence_rule query :
  (quantity_within_limit query = true ->
   exists r,
     parse_user_query query = ok r
     /\ p_confidence r = py_round2 (accumulate (matched_fields query) float_increments 0)
     /\ p_confidence r = float_of_ratio (score (matched_fields query) increments) 100
     /\ 0 <= score (matched_fields query) increments <= 145
     /\ num_le (PInt 0) (PFloat (p_confidence r)) = true
     /\ num_le (PFloat (p_confidence r)) (PFloat 1.45) = true)
  /\ (quantity_within_limit query = false ->
      exists e, parse_user_query query = inl e /\ exn_cls e = ValueError).
Proof.
  split; [|apply parse_user_query_refuses].
  intros Hq. destruct (parse_user_query_returns query Hq) as (r & Hr & Hc).
  exists r. split; [exact Hr|]. split; [exact Hc|]. rewrite Hc.
  unfold matched_fields. cbv zeta.
  match goal with
  | |- context [accumulate [?b1; ?b2; ?b3; ?b4; ?b5; ?b6; ?b7; ?b8; ?b9; ?b10] _ _] =>
      destruct (confidence_table b1 b2 b3 b4 b5 b6 b7 b8 b9 b10) as (H1 & H2 & H3)
  end.
  split; [exact H1|]. split; [|split; assumption].
  apply (score_bounds _ increments). repeat constructor; lia.
Qed.

End Extractor.

Lemma vi_tolower_dot_comma p x :
  p = chr "." \/ p = chr "," -> Vi.ieq p x = true -> x = p.
Proof.
  intros Hp. unfold Vi.ieq.
  assert (Hlow : forall c, Vi.tolower c = p -> c = p).
  { intros c. unfold Vi.tolower, Vi.in_range.
    repeat match goal with
    | |- context [if ?b then _ else _] => destruct b eqn:?
    end;
    repeat match goal with
    | H : _ && _ = true |- _ => apply andb_true_iff in H as [? ?]
    | H : _ || _ = true |- _ => apply orb_true_iff in H as [?|?]
    | H : (_ <=? _)%N = true |- _ => apply N.leb_le in H
    | H : (_ =? _)%N = true |- _ => apply N.eqb_eq in H
    end;
    destruct Hp as [-> | ->]; vm_compute (chr _); try lia; congruence. }
  assert (Hp' : Vi.tolower p = p) by (destruct Hp as [-> | ->]; reflexivity).
  rewrite Hp'. intros H. apply orb_true_iff in H as [H|H].
  - apply N.eqb_eq in H. apply Hlow. exact H.
  - exfalso. unfold Vi.case_twin in H.
    destruct Hp as [-> | ->]; vm_compute (chr _) in H; simpl in H; discriminate H.
Qed.

(** The tables of [Vi] satisfy the laws. *)
Lemma vi_laws : @TableLaws Vi.tables.
Proof.
  constructor; simpl.
  - intros c d. unfold Vi.decimal, Vi.in_range.
    destruct ((48 <=? c)%N && (c <=? 57)%N) eqn:E; [|discriminate].
    intros [= <-]. apply andb_true_iff in E as [H1 H2].
    apply N.leb_le in H1, H2. lia.
  - intros c _. reflexivity.
  - intros c d. unfold Vi.decimal, Vi.in_range.
    destruct ((48 <=? c)%N && (c <=? 57)%N) eqn:E; [|discriminate].
    intros _. apply andb_true_iff in E as [H1 H2]. apply N.leb_le in H1, H2.
    unfold Vi.isspace, Vi.in_range.
    repeat (apply orb_false_iff; split);
      first [apply N.eqb_neq; lia | apply andb_false_iff; right; apply N.leb_gt; lia
            | apply andb_false_iff; left; apply N.leb_gt; lia].
  - intros x. apply vi_tolower_dot_comma. left. reflexivity.
  - intros x. apply vi_tolower_dot_comma. right. reflexivity.
Qed.

(** C4, as stated, fails: a text that names all ten fields gets the
    confidence 1.45, above 1. *)
Lemma full_query_confidence :
  option_map p_confidence
    (match @parse_user_query Vi.tables full_query with inr r => Some r | inl _ => None end)
  = Some 1.45%float
  /\ num_lt (PInt 1) (PFloat 1.45) = true.
Proof. vm_compute. split; reflexivity. Qed.

(** ** The theorems at concrete inputs *)

Lemma not_reached_all (l : list band) v :
  forallb (fun b => negb (num_le (fst b) v)) l = true ->
  Forall (fun b => num_le (fst b) v = false) l.
Proof.
  intros H. apply List.Forall_forall. intros b Hb.
  apply negb_true_iff. revert b Hb. apply forallb_forall. exact H.
Qed.

Lemma numbers_all (l : list pynum) :
  forallb is_number l = true -> Forall (fun c => is_number c = true) l.
Proof.
  intros H. apply List.Forall_forall. apply forallb_forall. exact H.
Qed.



Lemma km_table_ascending : ascending (thresholds km_table) = true.
Proof. vm_compute. reflexivity. Qed.

(** The embedded distance table at 156 km, below 0 and far beyond 2500 km. *)
Lemma band_lookup_example :
  ascending (thresholds km_table) = true
  /\ get_km_coefficient DEFAULT_CONFIG (VNum (PFloat 156)) = ok (PFloat 0.45)
  /\ get_km_coefficient DEFAULT_CONFIG (VNum (PFloat (-3))) = ok (PFloat 0.35)
  /\ get_km_coefficient DEFAULT_CONFIG (VNum (PFloat 1e9)) = ok (PFloat 1.6).
Proof.
  split; [exact km_table_ascending|].
  split; [|split].
  - apply (proj1 (band_lookup_rule DEFAULT_CONFIG km_table _ (PFloat 156)
                    (lookup_km DEFAULT_CONFIG km_table eq_refl) km_table_ascending)
             (firstn 3 km_table) (PInt 150) (PFloat 0.45) (skipn 4 km_table)).
    + reflexivity.
    + vm_compute. reflexivity.
    + apply not_reached_all. vm_compute. reflexivity.
  - apply (proj1 (proj2 (band_lookup_rule DEFAULT_CONFIG km_table _ (PFloat (-3))
                    (lookup_km DEFAULT_CONFIG km_table eq_refl) km_table_ascending))
             (PInt 0) (PFloat 0.35) (skipn 1 km_table)).
    + reflexivity.
    + apply not_reached_all. vm_compute. reflexivity.
  - apply (proj1 (proj2 (proj2 (band_lookup_rule DEFAULT_CONFIG km_table _ (PFloat 1e9)
                    (lookup_km DEFAULT_CONFIG km_table eq_refl) km_table_ascending)))
             (firstn 35 km_table) (PInt 2500) (PFloat 1.6)).
    + reflexivity.
    + vm_compute. reflexivity.
Defined.

(** The embedded distance table gives a non-decreasing lookup, and 0.4 at its
    threshold 100. *)
Lemma band_lookup_step_example :
  ascending (thresholds km_table) = true
  /\ (forall v w cv cw,
        num_le v w = true ->
        get_km_coefficient DEFAULT_CONFIG (VNum v) = ok cv ->
        get_km_coefficient DEFAULT_CONFIG (VNum w) = ok cw ->
        num_le cv cw = true)
  /\ get_km_coefficient DEFAULT_CONFIG (VNum (PInt 100)) = ok (PFloat 0.4).
Proof.
  pose proof (band_lookup_step_function DEFAULT_CONFIG km_table _
                (lookup_km DEFAULT_CONFIG km_table eq_refl) km_table_ascending) as (_ & Hmono & Hat).
  split; [exact km_table_ascending|]. split.
  - apply Hmono; [vm_compute; reflexivity|].
    apply numbers_all. vm_compute. reflexivity.
  - assert (Hpost : Forall (fun b : band => num_lt (PInt 100) (fst b) = true)
                      (skipn 3 km_table)).
    { apply List.Forall_forall. apply forallb_forall. vm_compute. reflexivity. }
    exact (proj1 (Hat (firstn 2 km_table) (PInt 100) (PFloat 0.4) (skipn 3 km_table)
                    eq_refl eq_refl Hpost)).
Defined.

(** A delivery to " TP Vinh " adds 980100 to the example. *)
Lemma delivery_surcharge_example :
  let r := @calculate_shipping_rate Vi.tables DEFAULT_CONFIG vinh_request in
  succeeded r
  /\ @names_vinh Vi.tables (delivery_point vinh_request)
  /\ field r "delivery_fee" = Some (PInt 980100)
  /\ field r "total_cost" = Some (PInt 2388951).
Proof.
  intros r.
  assert (Hs : succeeded r) by (vm_compute; reflexivity).
  assert (Hv : @names_vinh Vi.tables (delivery_point vinh_request)).
  { eexists. split; [reflexivity|]. split; [discriminate|]. vm_compute. reflexivity. }
  split; [exact Hs|]. split; [exact Hv|]. split.
  - apply (proj1 (proj2 (@delivery_surcharge_rule Vi.tables vinh_request r eq_refl Hs))).
    exact Hv.
  - vm_compute. reflexivity.
Defined.



(** The text that names every field, and the text whose package count is
    beyond the 4300 digits that [int] converts. *)
Lemma confidence_example :
  (@quantity_within_limit Vi.tables full_query = true
   /\ exists r,
     @parse_user_query Vi.tables full_query = ok r
     /\ p_confidence r
        = py_round2 (accumulate (@matched_fields Vi.tables full_query) float_increments 0)
     /\ p_confidence r
        = float_of_ratio (score (@matched_fields Vi.tables full_query) increments) 100
     /\ 0 <= score (@matched_fields Vi.tables full_query) increments <= 145
     /\ num_le (PInt 0) (PFloat (p_confidence r)) = true
     /\ num_le (PFloat (p_confidence r)) (PFloat 1.45) = true)
  /\ (@quantity_within_limit Vi.tables oversized_query = false
      /\ exists e, @parse_user_query Vi.tables oversized_query = inl e
                   /\ exn_cls e = ValueError).
Proof.
  assert (Hq : @quantity_within_limit Vi.tables full_query = true) by (vm_compute; reflexivity).
  assert (Ho : @quantity_within_limit Vi.tables oversized_query = false)
    by (vm_compute; reflexivity).
  split; (split; [assumption|]).
  - exact (proj1 (@confidence_rule Vi.tables vi_laws full_query) Hq).
  - exact (proj2 (@confidence_rule Vi.tables vi_laws oversized_query) Ho).
Defined.


(** ** The examples of the specification *)

(** 156 km and 1000 kg: the 150 km band, the rate of 1 to under 3 tonnes, no
    surcharge. *)
Example example_breakdown :
  let r := @calculate_shipping_rate Vi.tables DEFAULT_CONFIG example_request in
  field r "chargeable_weight" = Some (PFloat 1000)
  /\ coefficient r "km" = Some (PFloat 0.45)
  /\ get_base_rate (PFloat 1000) = PFloat 3130.78
  /\ field r "base_freight" = Some (PInt 1408851)
  /\ field r "delivery_fee" = Some (PInt 0)
  /\ field r "total_cost" = Some (PInt 1408851)
  /\ field r "shared_vehicle_cost" = Some (PInt 1267966)
  /\ field r "full_vehicle_cost" = Some (PInt 1834222)
  /\ field r "customer_price" = Some (PInt 1408851).
Proof. vm_compute. repeat split. Qed.

(** A heavier shipment pays less per kilogram. *)
Example base_rate_brackets :
  get_base_rate (PFloat 999.9) = PFloat 5230.78
  /\ get_base_rate (PInt 1000) = PFloat 3130.78
  /\ get_base_rate (PInt 2999) = PFloat 3130.78
  /\ get_base_rate (PInt 3000) = PFloat 2180.78
  /\ get_base_rate (PInt 10000) = PFloat 1200.78
  /\ get_base_rate (PFloat nan) = PFloat 1200.78.
Proof. vm_compute. repeat split. Qed.

(** Names that the tables do not know get the coefficient 1.0. *)
Example unknown_names :
  get_zone_coefficient DEFAULT_CONFIG (VStr (utf8 "Vùng 9")) = ok (PFloat 1.0)
  /\ get_goods_coefficient DEFAULT_CONFIG (VStr (utf8 "Hàng lạ")) = ok (PFloat 1.0)
  /\ get_vehicle_coefficient DEFAULT_CONFIG VNone = ok (PFloat 1.0)
  /\ get_zone_coefficient DEFAULT_CONFIG (VStr (utf8 "Vùng huyện đảo")) = ok (PFloat 1.5).
Proof. vm_compute. repeat split. Qed.

(** "Transport from A to B, 1 tonne, 156 km". *)
Example example_extraction :
  match @parse_user_query Vi.tables (utf8 "vận chuyển từ A đến B, 1 tấn, 156km") with
  | inr r =>
      p_from_location r = Some (utf8 "A") /\ p_to_location r = Some (utf8 "B")
      /\ p_weight r = Some 1000%float /\ p_distance r = Some 156%float
      /\ p_quantity r = 1 /\ p_confidence r = 0.8%float
  | inl _ => False
  end.
Proof. vm_compute. repeat split. Qed.

(** [round] goes to the even neighbour on a tie; [float] reads decimals to the
    nearest binary number. *)
Example builtin_rounding :
  py_round (PFloat 0.5) = ok 0 /\ py_round (PFloat 1.5) = ok 2
  /\ py_round (PFloat 2.5) = ok 2 /\ py_round (PFloat (-2.5)) = ok (-2)
  /\ py_round2 0.125 = 0.12%float /\ py_round2 2.675 = 2.67%float
  /\ @float_of_str Vi.tables (utf8 " 2_500.75e-2 ") = ok 25.0075%float
  /\ @float_of_str Vi.tables (utf8 "1e400") = ok infinity
  /\ @int_of_str Vi.tables (utf8 "-1_000") = ok (-1000).
Proof. vm_compute. repeat split. Qed.
